(** * Alert watcher for a blue-green deployment: the monitoring core

    A shallow embedding of [alert-watcher/watcher.py]: the bounded window of
    recent requests and its error rate, the per-type alert cooldown, the
    failover and recovery detection, the error-rate check, the log-line
    parser and the body of the main loop.

    Conventions of the embedding.
    - Python [float] values (clock readings, the error rate, the timing
      fields of a log line, the threshold) are rationals [Q]. The error
      rate and the parsed timing fields are rounded to binary64 as the
      interpreter rounds them ([b64_nearest]); clock readings and the
      threshold are taken as given, and a decimal literal such as [0.1] is
      the rational it denotes.
    - Python [int] values are [Z]; the length of a container is [nat].
    - [str] is [string], read as a sequence of code points below 256.
    - The module constants read from the environment are the fields of
      [Config]; the singleton [state] and the outside world (the clock and
      what was sent) are threaded explicitly through a small monad.
    - [time.time()] reads the next value of a clock [nat -> Q]; nothing is
      assumed about the readings. *)

From Stdlib Require Import ZArith QArith Qround Qabs Lqa String Ascii List Bool Lia.
From Stdlib Require Import DecimalString SpecFloat.
From stdpp Require Import gmap strings.
Import ListNotations.

Local Open Scope Z_scope.
Local Open Scope string_scope.
Local Open Scope list_scope.

(** ** Exceptions and results *)

Inductive exn : Type :=
| ValueError
| IndexError
| ZeroDivisionError.

Inductive Res (A : Type) : Type :=
| Ok (a : A)
| Raise (e : exn).
Arguments Ok {A} a.
Arguments Raise {A} e.

Definition res_bind {A B : Type} (r : Res A) (k : A -> Res B) : Res B :=
  match r with
  | Ok a => k a
  | Raise e => Raise e
  end.

(** [try: body except (e1, e2, ...): handler] *)
Definition try_except {A : Type} (body : Res A) (caught : exn -> bool)
    (handler : exn -> Res A) : Res A :=
  match body with
  | Ok a => Ok a
  | Raise e => if caught e then handler e else Raise e
  end.

(** ** Configuration (lines 25-30) *)

Record Config : Type := mkConfig {
  ERROR_RATE_THRESHOLD : Q;
  WINDOW_SIZE : nat;          (* deque(maxlen=...) refuses a negative size *)
  ALERT_COOLDOWN_SEC : Z;
  MAINTENANCE_MODE : bool
}.

(** The defaults of the environment variables. *)
Definition default_config : Config :=
  {| ERROR_RATE_THRESHOLD := 2 # 1;
     WINDOW_SIZE := 200;
     ALERT_COOLDOWN_SEC := 300;
     MAINTENANCE_MODE := false |}.

(** ** The watcher state (lines 33-39) *)

Record Observation : Type := mkObservation {
  status : Z;
  obs_pool : string;
  timestamp : Q
}.

Record WatcherState : Type := mkWatcherState {
  request_window : list Observation;        (* oldest first *)
  current_pool : option string;
  last_alert_times : gmap string Q;
  failover_start_time : option Q;
  total_requests : nat
}.

(** [WatcherState.__init__] *)
Definition init_state : WatcherState :=
  {| request_window := [];
     current_pool := None;
     last_alert_times := ∅;
     failover_start_time := None;
     total_requests := 0 |}.

Definition set_request_window (l : list Observation) (s : WatcherState) :=
  {| request_window := l;
     current_pool := current_pool s;
     last_alert_times := last_alert_times s;
     failover_start_time := failover_start_time s;
     total_requests := total_requests s |}.

Definition set_current_pool (p : option string) (s : WatcherState) :=
  {| request_window := request_window s;
     current_pool := p;
     last_alert_times := last_alert_times s;
     failover_start_time := failover_start_time s;
     total_requests := total_requests s |}.

Definition set_last_alert_times (m : gmap string Q) (s : WatcherState) :=
  {| request_window := request_window s;
     current_pool := current_pool s;
     last_alert_times := m;
     failover_start_time := failover_start_time s;
     total_requests := total_requests s |}.

Definition set_failover_start_time (t : option Q) (s : WatcherState) :=
  {| request_window := request_window s;
     current_pool := current_pool s;
     last_alert_times := last_alert_times s;
     failover_start_time := t;
     total_requests := total_requests s |}.

Definition set_total_requests (n : nat) (s : WatcherState) :=
  {| request_window := request_window s;
     current_pool := current_pool s;
     last_alert_times := last_alert_times s;
     failover_start_time := failover_start_time s;
     total_requests := n |}.

(** ** The world: state, clock position, and what happened *)

(** The [data] dictionaries handed to [send_slack_alert]. *)
Inductive Payload : Type :=
| FailoverData (from_pool to_pool : string)
| ErrorRateData (error_rate : Q) (active_pool : string)
| RecoveryData (pool : string) (duration : Q).

Inductive Event : Type :=
| EvGate (alert_type : string) (granted : bool)
    (* a call of can_send_alert and what it returned *)
| EvSlack (alert_type : string) (data : Payload).
    (* a call of send_slack_alert *)

Record World : Type := mkWorld {
  st : WatcherState;
  tick : nat;                 (* how many times the clock was read *)
  trace : list Event          (* oldest first *)
}.

Definition fresh_world : World :=
  {| st := init_state; tick := 0; trace := [] |}.

Definition M (A : Type) : Type := World -> Res A * World.

Definition ret {A : Type} (a : A) : M A := fun w => (Ok a, w).

Definition bind {A B : Type} (c : M A) (k : A -> M B) : M B :=
  fun w =>
    match c w with
    | (Ok a, w') => k a w'
    | (Raise e, w') => (Raise e, w')
    end.

Declare Scope watcher_scope.
Delimit Scope watcher_scope with watcher.
Notation "x <- c ;; k" := (bind c (fun x => k))
  (at level 100, c at next level, right associativity) : watcher_scope.
Notation "c ;; k" := (bind c (fun _ => k))
  (at level 100, right associativity) : watcher_scope.
Local Open Scope watcher_scope.

Definition gets {A : Type} (f : WatcherState -> A) : M A :=
  fun w => (Ok (f (st w)), w).

Definition modify (f : WatcherState -> WatcherState) : M unit :=
  fun w => (Ok tt, {| st := f (st w); tick := tick w; trace := trace w |}).

Definition emit (e : Event) : M unit :=
  fun w => (Ok tt, {| st := st w; tick := tick w; trace := trace w ++ [e] |}).

Definition lift {A : Type} (r : Res A) : M A := fun w => (r, w).

(** ** Comparisons of Python numbers *)

Definition Qlt_bool (a b : Q) : bool := negb (Qle_bool b a).

(** Truth value of [x] for [x : Optional[float]]: [None] and [0.0] are false. *)
Definition truthy_time (o : option Q) : bool :=
  match o with
  | None => false
  | Some t => negb (Qeq_bool t 0)
  end.

(** [x or d] for [x : Optional[str]]: [None] and the empty string are false. *)
Definition str_or (o : option string) (d : string) : string :=
  match o with
  | None => d
  | Some s => if String.eqb s EmptyString then d else s
  end.

(** ** str.lower and str.startswith *)

Definition lower_ascii (c : ascii) : ascii :=
  let n := nat_of_ascii c in
  if ((65 <=? n) && (n <=? 90))%nat
     || ((192 <=? n) && (n <=? 222) && negb (n =? 215))%nat
  then ascii_of_nat (n + 32)
  else c.

Fixpoint lower (s : string) : string :=
  match s with
  | EmptyString => EmptyString
  | String c s' => String (lower_ascii c) (lower s')
  end.

Definition startswith (s pre : string) : bool := String.prefix pre s.

(** ** collections.deque with a maximum length *)

(** [d.append(x)] for [d = deque(maxlen=cap)]: the item goes in at the right
    and, if that makes the deque longer than [cap], one item leaves at the
    left, all within the one call. *)
Definition deque_append {A : Type} (cap : nat) (d : list A) (x : A) : list A :=
  let d' := d ++ [x] in
  if (cap <? length d')%nat then tl d' else d'.

(** ** Binary64 rounding *)

(** [num / den] (both positive) rounded to the nearest integer, ties to even. *)
Definition round_half_even (num den : Z) : Z :=
  let m := (num / den)%Z in
  let r := (num mod den)%Z in
  match (2 * r ?= den)%Z with
  | Lt => m
  | Gt => (m + 1)%Z
  | Eq => if Z.even m then m else (m + 1)%Z
  end.

(** The exponent of the binary64 grid around [a / d] (both positive): the
    [e] with [2^52 <= a / d / 2^e < 2^53], and at least -1074. *)
Definition b64_exponent (a d : Z) : Z :=
  let k := (Z.log2 a - Z.log2 d)%Z in
  let above :=
    if (0 <=? k)%Z then (d * 2 ^ k <=? a)%Z else (d <=? a * 2 ^ (- k))%Z in
  Z.max ((if above then k else k - 1) - 52) (-1074).

(** The point of that grid nearest to [a / d] (both positive). *)
Definition b64_magnitude (a d : Z) : Q :=
  let e := b64_exponent a d in
  if (0 <=? e)%Z then inject_Z (round_half_even a (d * 2 ^ e) * 2 ^ e)
  else Qred (Qmake (round_half_even (a * 2 ^ (- e)) d) (Z.to_pos (2 ^ (- e)))).

(** The binary64 number nearest to [q], ties to even, as every float
    operation rounds its exact result; the exponent is not bounded above. *)
Definition b64_nearest (q : Q) : Q :=
  let q' := Qred q in
  match Qnum q' with
  | Z0 => 0%Q
  | Zpos a => b64_magnitude (Zpos a) (Zpos (Qden q'))
  | Zneg a => (- b64_magnitude (Zpos a) (Zpos (Qden q')))%Q
  end.

(** Rounding [q] leaves the range of binary64: the result is an infinity. *)
Definition b64_overflows (q : Q) : bool :=
  Qle_bool (inject_Z (2 ^ 1024)) (Qabs (b64_nearest q)).

(** The value of a binary64 number of the Standard Library's specification
    of floating-point arithmetic, and the float of an int. *)
Definition SF_value (f : spec_float) : option Q :=
  match f with
  | S754_zero _ => Some 0%Q
  | S754_finite s m e =>
      let v := if (0 <=? e)%Z then inject_Z (Zpos m * 2 ^ e)
               else Qred (Qmake (Zpos m) (Z.to_pos (2 ^ (- e)))) in
      Some (if s then (- v)%Q else v)
  | _ => None
  end.

Definition SF_of_Z (z : Z) : spec_float := binary_normalize 53 1024 z 0 false.

(** [c / n * 100] as that specification computes it on binary64 numbers. *)
Definition SF_rate (c n : Z) : option Q :=
  SF_value (SFmul 53 1024 (SFdiv 53 1024 (SF_of_Z c) (SF_of_Z n)) (SF_of_Z 100)).

(** ** WatcherState.get_error_rate (lines 50-56) *)

Definition is_5xx (req : Observation) : bool :=
  ((500 <=? status req) && (status req <? 600))%Z.

(** [sum(1 for req in window if 500 <= req['status'] < 600)] *)
Definition error_count (window : list Observation) : Z :=
  fold_left (fun acc req => if is_5xx req then (acc + 1)%Z else acc) window 0%Z.

(** True division [a / b] of two ints: the quotient, rounded to binary64.
    (A quotient too large for a float is not modelled; here it is at most 1.) *)
Definition py_truediv (a b : Z) : Res Q :=
  if (b =? 0)%Z then Raise ZeroDivisionError
  else Ok (b64_nearest (inject_Z a / inject_Z b)).

(** [x * 100] for a float [x]: the product, rounded to binary64. *)
Definition times_100 (x : Q) : Q := b64_nearest (x * 100).

Definition get_error_rate (window : list Observation) : Res Q :=
  if (length window =? 0)%nat then Ok 0%Q
  else
    res_bind (py_truediv (error_count window) (Z.of_nat (length window)))
      (fun q => Ok (times_100 q)).

(** ** str.strip and str.split *)

(** The white space of [str.strip()] among the code points below 256. *)
Definition is_space (c : ascii) : bool :=
  let n := nat_of_ascii c in
  ((9 <=? n) && (n <=? 13) || (28 <=? n) && (n <=? 32)
   || (n =? 133) || (n =? 160))%nat.

Definition is_empty (s : string) : bool :=
  match s with
  | EmptyString => true
  | String _ _ => false
  end.

Fixpoint lstrip (s : string) : string :=
  match s with
  | EmptyString => EmptyString
  | String c s' => if is_space c then lstrip s' else s
  end.

Fixpoint rstrip (s : string) : string :=
  match s with
  | EmptyString => EmptyString
  | String c s' =>
      let r := rstrip s' in
      if is_space c && is_empty r then EmptyString else String c r
  end.

Definition strip (s : string) : string := rstrip (lstrip s).

(** [s.split(sep)] for a one-character separator: never an empty list. *)
Fixpoint split (s : string) (sep : ascii) : list string :=
  match s with
  | EmptyString => [EmptyString]
  | String c s' =>
      if Ascii.eqb c sep then EmptyString :: split s' sep
      else
        match split s' sep with
        | field :: rest => String c field :: rest
        | [] => [String c EmptyString]
        end
  end.

(** [parts[i]] *)
Definition getitem (parts : list string) (i : nat) : Res string :=
  match nth_error parts i with
  | Some x => Ok x
  | None => Raise IndexError
  end.

(** ** int(str) and float(str) *)

Definition digit_val (c : ascii) : option Z :=
  let n := nat_of_ascii c in
  if ((48 <=? n) && (n <=? 57))%nat then Some (Z.of_nat n - 48)%Z else None.

(** The rest of a digit part, [(["_"] digit)*], after a digit: the value so
    far, the number of digits so far, and what is left of the text. *)
Fixpoint digits_tail (acc : Z) (len : nat) (s : string) : Z * nat * string :=
  match s with
  | EmptyString => (acc, len, s)
  | String c s' =>
      match digit_val c with
      | Some d => digits_tail (10 * acc + d)%Z (S len) s'
      | None =>
          if Ascii.eqb c "_" then
            match s' with
            | String c2 s'' =>
                match digit_val c2 with
                | Some d => digits_tail (10 * acc + d)%Z (S len) s''
                | None => (acc, len, s)
                end
            | EmptyString => (acc, len, s)
            end
          else (acc, len, s)
      end
  end.

(** [digit (["_"] digit)*] at the front of the text. *)
Definition digitpart (s : string) : option (Z * nat * string) :=
  match s with
  | EmptyString => None
  | String c s' =>
      match digit_val c with
      | Some d => Some (digits_tail d 1 s')
      | None => None
      end
  end.

(** An optional sign: whether it is a minus, and the rest. *)
Definition take_sign (s : string) : bool * string :=
  match s with
  | String "-" s' => (true, s')
  | String "+" s' => (false, s')
  | _ => (false, s)
  end.

(** The interpreter's default limit on the digits of a text that [int]
    converts ([sys.get_int_max_str_digits()]). *)
Definition INT_MAX_STR_DIGITS : nat := 4300.

(** [int(s)] in base 10: white space around, an optional sign, digits with
    single underscores between them; a text of more digits than the limit
    is refused with a ValueError as well. *)
Definition py_int (s : string) : Res Z :=
  let '(neg, body) := take_sign (strip s) in
  match digitpart body with
  | Some (v, n, EmptyString) =>
      if (INT_MAX_STR_DIGITS <? n)%nat then Raise ValueError
      else Ok (if neg then - v else v)%Z
  | _ => Raise ValueError
  end.

Inductive PyFloat : Type :=
| Finite (q : Q)
| Infinity (negative : bool)
| NaN.

(** An optional exponent [("e" | "E") [sign] digitpart]: its value and the
    rest; without a complete exponent nothing is consumed. *)
Definition take_exponent (s : string) : Z * string :=
  match s with
  | String c s' =>
      if Ascii.eqb c "e" || Ascii.eqb c "E" then
        let '(neg, body) := take_sign s' in
        match digitpart body with
        | Some (v, _, rest) => ((if neg then - v else v)%Z, rest)
        | None => (0%Z, s)
        end
      else (0%Z, s)
  | EmptyString => (0%Z, s)
  end.

(** [[digitpart] "." digitpart | digitpart ["."]]: the digits read as one
    integer, how many of them follow the point, and the rest. *)
Definition take_number (s : string) : option (Z * nat * string) :=
  match digitpart s with
  | Some (i, _, String "." rest) =>
      match digitpart rest with
      | Some (_, _, _) =>
          let '(m, n, rest') := digits_tail i 0 rest in Some (m, n, rest')
      | None => Some (i, 0%nat, rest)
      end
  | Some (i, _, rest) => Some (i, 0%nat, rest)
  | None =>
      match s with
      | String "." rest =>
          match digitpart rest with
          | Some (_, _, _) =>
              let '(m, n, rest') := digits_tail 0 0 rest in Some (m, n, rest')
          | None => None
          end
      | _ => None
      end
  end.

(** [float(s)]: white space around, an optional sign, then "inf",
    "infinity" or "nan" in any case, or a decimal number with an optional
    exponent. The number the text denotes is rounded to binary64: beyond
    the range it is an infinity, below it it is 0 (whose sign is not kept). *)
Definition py_float (s : string) : Res PyFloat :=
  let '(neg, body) := take_sign (strip s) in
  let word := lower body in
  if String.eqb word "inf" || String.eqb word "infinity" then Ok (Infinity neg)
  else if String.eqb word "nan" then Ok NaN
  else
    match take_number body with
    | Some (m, n, rest) =>
        match take_exponent rest with
        | (e, EmptyString) =>
            let magnitude := (inject_Z m * Qpower (10 # 1) (e - Z.of_nat n))%Q in
            let q := (if neg then - magnitude else magnitude)%Q in
            if b64_overflows q then Ok (Infinity neg)
            else Ok (Finite (b64_nearest q))
        | _ => Raise ValueError
        end
    | None => Raise ValueError
    end.

(** ** parse_log_line (lines 231-252) *)

Record LogRecord : Type := mkLogRecord {
  pool : string;
  release : string;
  upstream_status : Z;
  upstream_addr : string;
  request_time : PyFloat;
  upstream_response_time : PyFloat
}.

(** [int(x) if x else 0] *)
Definition int_or_zero (x : string) : Res Z :=
  if is_empty x then Ok 0%Z else py_int x.

(** [float(x) if x else 0.0] *)
Definition float_or_zero (x : string) : Res PyFloat :=
  if is_empty x then Ok (Finite 0) else py_float x.

Definition caught_by_parser (e : exn) : bool :=
  match e with
  | ValueError | IndexError => true
  | _ => false
  end.

Definition parse_log_line (line : string) : Res (option LogRecord) :=
  let parts := split (strip line) "|" in
  if (length parts <? 6)%nat then Ok None
  else
    try_except
      (res_bind (getitem parts 0) (fun p0 =>
       res_bind (getitem parts 1) (fun p1 =>
       res_bind (getitem parts 2) (fun p2 =>
       res_bind (int_or_zero (strip p2)) (fun status =>
       res_bind (getitem parts 3) (fun p3 =>
       res_bind (getitem parts 4) (fun p4 =>
       res_bind (float_or_zero (strip p4)) (fun rt =>
       res_bind (getitem parts 5) (fun p5 =>
       res_bind (float_or_zero (strip p5)) (fun urt =>
       Ok (Some {| pool := strip p0;
                   release := strip p1;
                   upstream_status := status;
                   upstream_addr := strip p3;
                   request_time := rt;
                   upstream_response_time := urt |})))))))))))
      caught_by_parser
      (fun _ => Ok None).

Section Watcher.

Variable cfg : Config.
Variable clock : nat -> Q.

(** [time.time()] *)
Definition time_time : M Q :=
  fun w => (Ok (clock (tick w)),
            {| st := st w; tick := S (tick w); trace := trace w |}).

(** [send_slack_alert]: the call is recorded; what the delivery returns is
    ignored by every caller. *)
Definition send_slack_alert (alert_type : string) (data : Payload) : M unit :=
  emit (EvSlack alert_type data).

(** ** WatcherState.add_request (lines 41-48) *)

Definition add_request (status : Z) (pool : string) : M unit :=
  t <- time_time ;;
  modify (fun s =>
    set_request_window
      (deque_append (WINDOW_SIZE cfg) (request_window s)
         {| status := status; obs_pool := pool; timestamp := t |}) s) ;;
  modify (fun s => set_total_requests (total_requests s + 1) s).

(** ** WatcherState.can_send_alert (lines 58-73) *)

Definition can_send_alert (alert_type : string) : M bool :=
  if MAINTENANCE_MODE cfg then
    emit (EvGate alert_type false) ;;
    ret false
  else
    last_time <- gets (fun s => default 0%Q (last_alert_times s !! alert_type)) ;;
    current_time <- time_time ;;
    if Qle_bool (inject_Z (ALERT_COOLDOWN_SEC cfg)) (current_time - last_time) then
      modify (fun s =>
        set_last_alert_times (<[alert_type := current_time]> (last_alert_times s)) s) ;;
      emit (EvGate alert_type true) ;;
      ret true
    else
      emit (EvGate alert_type false) ;;
      ret false.

(** ** detect_failover (lines 254-288) *)

(** Lines 265-270: the failover alert. *)
Definition failover_alert (old_pool new_pool : string) : M unit :=
  granted <- can_send_alert "failover" ;;
  if granted then
    send_slack_alert "failover" (FailoverData old_pool new_pool) ;;
    t <- time_time ;;
    modify (set_failover_start_time (Some t))
  else ret tt.

(** Line 277: the test that guards the recovery branch. *)
Definition recovery_condition (new_pool : string) (s : WatcherState) : bool :=
  startswith (lower new_pool) "blue" && truthy_time (failover_start_time s).

(** Lines 277-284: the recovery check. *)
Definition recovery_check (new_pool : string) : M unit :=
  enter <- gets (recovery_condition new_pool) ;;
  if enter then
    now <- time_time ;;
    start <- gets (fun s => default 0%Q (failover_start_time s)) ;;
    let duration := (now - start)%Q in
    granted <- can_send_alert "recovery" ;;
    (if granted then send_slack_alert "recovery" (RecoveryData new_pool duration)
     else ret tt) ;;
    modify (set_failover_start_time None)
  else ret tt.

Definition detect_failover (new_pool : string) : M bool :=
  cur <- gets current_pool ;;
  match cur with
  | None =>
      modify (set_current_pool (Some new_pool)) ;;
      ret false
  | Some old_pool =>
      if negb (String.eqb old_pool new_pool) then
        failover_alert old_pool new_pool ;;
        modify (set_current_pool (Some new_pool)) ;;
        recovery_check new_pool ;;
        ret true
      else ret false
  end.

(** ** check_error_rate (lines 290-304) *)

(** The product [WINDOW_SIZE * 0.1] is taken over the rationals; against an
    integer length the comparison of line 292 comes out the same. *)

Definition check_error_rate : M unit :=
  window <- gets request_window ;;
  if Qlt_bool (inject_Z (Z.of_nat (length window)))
              (inject_Z (Z.of_nat (WINDOW_SIZE cfg)) * (1 # 10))
  then ret tt
  else
    error_rate <- lift (get_error_rate window) ;;
    if Qlt_bool (ERROR_RATE_THRESHOLD cfg) error_rate then
      granted <- can_send_alert "error_rate" ;;
      if granted then
        active <- gets current_pool ;;
        send_slack_alert "error_rate"
          (ErrorRateData error_rate (str_or active "Unknown"))
      else ret tt
    else ret tt.

End Watcher.

(** ** The body of the main loop (lines 349-372) *)

Section MainLoop.

Variable cfg : Config.
Variable clock : nat -> Q.

Definition process_line (line : string) : M unit :=
  parsed <- lift (parse_log_line line) ;;
  match parsed with
  | Some r =>
      add_request cfg clock (upstream_status r) (pool r) ;;
      detect_failover cfg clock (pool r) ;;
      n <- gets total_requests ;;
      (if (n mod 10 =? 0)%nat then check_error_rate cfg clock else ret tt) ;;
      n' <- gets total_requests ;;
      if (n' mod 50 =? 0)%nat then
        window <- gets request_window ;;
        lift (get_error_rate window) ;;
        ret tt
      else ret tt
  | None => ret tt
  end.

End MainLoop.

(** ** Notions used in the statements *)

(** The world after one reading of the clock. *)
Definition advance (w : World) : World :=
  {| st := st w; tick := S (tick w); trace := trace w |}.

Definition with_state (f : WatcherState -> WatcherState) (w : World) : World :=
  {| st := f (st w); tick := tick w; trace := trace w |}.

Definition with_event (e : Event) (w : World) : World :=
  {| st := st w; tick := tick w; trace := trace w ++ [e] |}.

(** What a gate call does to the world when it says no. *)
Definition gate_denied (alert_type : string) (read_clock : bool) (w : World) : World :=
  {| st := st w;
     tick := if read_clock then S (tick w) else tick w;
     trace := trace w ++ [EvGate alert_type false] |}.

Section Notions.

Variable cfg : Config.
Variable clock : nat -> Q.

(** What a gate call does to the world when it says yes. *)
Definition gate_granted (alert_type : string) (w : World) : World :=
  {| st := set_last_alert_times
             (<[alert_type := clock (tick w)]> (last_alert_times (st w))) (st w);
     tick := S (tick w);
     trace := trace w ++ [EvGate alert_type true] |}.

(** The time since the last alert of the type, as the gate computes it. *)
Definition elapsed (alert_type : string) (w : World) : Q :=
  (clock (tick w) - default 0 (last_alert_times (st w) !! alert_type))%Q.

(** The elapsed time the recovery branch reports. *)
Definition recovery_duration (w : World) : Q :=
  (clock (tick w) - default 0 (failover_start_time (st w)))%Q.

(** A sequence of [add_request] calls. *)
Fixpoint add_requests (calls : list (Z * string)) : M unit :=
  match calls with
  | [] => ret tt
  | (status, pool) :: rest => add_request cfg clock status pool ;; add_requests rest
  end.

(** The observations a sequence of calls creates when the clock has been
    read [t] times before. *)
Fixpoint observations (t : nat) (calls : list (Z * string)) : list Observation :=
  match calls with
  | [] => []
  | (status, pool) :: rest =>
      {| status := status; obs_pool := pool; timestamp := clock t |}
        :: observations (S t) rest
  end.

End Notions.

(** Several observations in a row, with what each call returned. *)
Fixpoint detect_all (cfg : Config) (clock : nat -> Q) (pools : list string)
    : M (list bool) :=
  match pools with
  | [] => ret []
  | p :: rest =>
      b <- detect_failover cfg clock p ;;
      bs <- detect_all cfg clock rest ;;
      ret (b :: bs)
  end.

(** The events of one alert: the gate's answer, then the delivery if granted. *)
Definition alert_events (alert_type : string) (granted : bool) (data : Payload)
    : list Event :=
  EvGate alert_type granted :: (if granted then [EvSlack alert_type data] else []).

(** The last [cap] items of a list. *)
Definition last_n {A : Type} (cap : nat) (l : list A) : list A :=
  skipn (length l - cap) l.

Definition is_5xx_status (z : Z) : Prop := (500 <= z < 600)%Z.

Fixpoint all_chars (p : ascii -> bool) (s : string) : bool :=
  match s with
  | EmptyString => true
  | String c s' => p c && all_chars p s'
  end.

Fixpoint count_char (c : ascii) (s : string) : nat :=
  match s with
  | EmptyString => 0
  | String a s' => (if Ascii.eqb a c then 1 else 0) + count_char c s'
  end.

(** Nothing to strip at either end. *)
Definition trimmed (s : string) : Prop := lstrip s = s /\ rstrip s = s.

Definition starts_clean (s : string) : Prop :=
  match s with
  | EmptyString => True
  | String c _ => is_space c = false
  end.

(** The [i]-th field of the line, stripped, as the parser reads it. *)
Definition field (line : string) (i : nat) : string :=
  strip (nth i (split (strip line) "|") EmptyString).



(** A clock that starts well after the epoch and advances one second a reading. *)
Definition wall_clock (n : nat) : Q := inject_Z (1700000000 + Z.of_nat n).

(** A simulated clock that starts at 100 and advances one second a reading. *)
Definition sim_clock (n : nat) : Q := inject_Z (100 + Z.of_nat n).

Definition maintenance_config : Config :=
  {| ERROR_RATE_THRESHOLD := 2 # 1;
     WINDOW_SIZE := 200;
     ALERT_COOLDOWN_SEC := 300;
     MAINTENANCE_MODE := true |}.

(** A window of capacity three. *)
Definition small_config : Config :=
  {| ERROR_RATE_THRESHOLD := 2 # 1;
     WINDOW_SIZE := 3;
     ALERT_COOLDOWN_SEC := 300;
     MAINTENANCE_MODE := false |}.


(** The primary pool is active and nothing else has happened. *)
Definition on_primary_world : World :=
  with_state (set_current_pool (Some "blue")) fresh_world.

(** The primary pool is active and nine requests have been served, each with
    a 503, under a window of three. *)
Definition failing_primary_world : World :=
  snd (add_requests small_config wall_clock (repeat (503, "blue") 9)
         on_primary_world).

(** The rate of [c] errors among [n] requests is the one the Standard
    Library's specification of binary64 computes, as the same fraction. *)
Definition rate_agrees (n c : nat) : bool :=
  match SF_rate (Z.of_nat c) (Z.of_nat n) with
  | Some x =>
      let r := times_100 (b64_nearest (inject_Z (Z.of_nat c) / inject_Z (Z.of_nat n))) in
      (Qnum x =? Qnum r)%Z && Pos.eqb (Qden x) (Qden r)
  | None => false
  end.

(** A text of [n] digits. *)
Fixpoint digits_text (n : nat) : string :=
  match n with
  | O => EmptyString
  | S k => String "7" (digits_text k)
  end.

(** A clock for a pool that flaps: the readings of five observations made at
    the times 1000, 1010, 1020 and 1400. *)
Definition flapping_clock (n : nat) : Q :=
  inject_Z (nth n [1000; 1000; 1010; 1010; 1010; 1020; 1400; 1400; 1400; 1400] 1400)%Z.

(** The stripped fields of a line, in order. *)
Definition stripped_fields (line : string) : list string :=
  map strip (split line "|").

(** What the parser makes of the stripped fields it looks at. *)
Definition parse_fields (fields : list string) : Res (option LogRecord) :=
  if (length fields <? 6)%nat then Ok None
  else
    try_except
      (res_bind (int_or_zero (nth 2 fields EmptyString)) (fun status =>
       res_bind (float_or_zero (nth 4 fields EmptyString)) (fun rt =>
       res_bind (float_or_zero (nth 5 fields EmptyString)) (fun urt =>
       Ok (Some {| pool := nth 0 fields EmptyString;
                   release := nth 1 fields EmptyString;
                   upstream_status := status;
                   upstream_addr := nth 3 fields EmptyString;
                   request_time := rt;
                   upstream_response_time := urt |})))))
      caught_by_parser
      (fun _ => Ok None).

(** Apply a function to the first, or to the last, item of a list. *)
Definition on_first {A : Type} (f : A -> A) (l : list A) : list A :=
  match l with
  | [] => []
  | x :: rest => f x :: rest
  end.

Fixpoint on_last {A : Type} (f : A -> A) (l : list A) : list A :=
  match l with
  | [] => []
  | [x] => [f x]
  | x :: rest => x :: on_last f rest
  end.

(** The characters [int] can accept: digits, the underscore and the signs. *)
Definition int_char (c : ascii) : bool :=
  match digit_val c with
  | Some _ => true
  | None => Ascii.eqb c "_" || Ascii.eqb c "+" || Ascii.eqb c "-"
  end.

(** ** The main loop (lines 347-372) over the lines read so far *)

(** [for line in tail_log_file(...)]: the body runs once per line, in order;
    an exception leaves the loop. *)
Fixpoint main_loop (cfg : Config) (clock : nat -> Q) (lines : list string)
    : M unit :=
  match lines with
  | [] => ret tt
  | line :: rest => process_line cfg clock line ;; main_loop cfg clock rest
  end.

(** The records of the lines that parse, in order. *)
Fixpoint parsed_records (lines : list string) : list LogRecord :=
  match lines with
  | [] => []
  | line :: rest =>
      match parse_log_line line with
      | Ok (Some r) => r :: parsed_records rest
      | _ => parsed_records rest
      end
  end.

(** ** The outcome of each step, given what the gate answered *)

Section Outcomes.

Variable cfg : Config.
Variable clock : nat -> Q.

Definition after_gate (alert_type : string) (granted : bool) (w : World) : World :=
  if granted then gate_granted clock alert_type w
  else gate_denied alert_type (negb (MAINTENANCE_MODE cfg)) w.

Definition after_failover_alert (granted : bool) (old_pool new_pool : string)
    (w : World) : World :=
  if granted then
    with_state (set_failover_start_time (Some (clock (S (tick w)))))
      (advance
         (with_event (EvSlack "failover" (FailoverData old_pool new_pool))
            (gate_granted clock "failover" w)))
  else gate_denied "failover" (negb (MAINTENANCE_MODE cfg)) w.

Definition after_recovery_check (granted : bool) (new_pool : string) (w : World)
    : World :=
  if recovery_condition new_pool (st w) then
    with_state (set_failover_start_time None)
      (if granted then
         with_event
           (EvSlack "recovery" (RecoveryData new_pool (recovery_duration clock w)))
           (gate_granted clock "recovery" (advance w))
       else gate_denied "recovery" (negb (MAINTENANCE_MODE cfg)) (advance w))
  else w.

Definition after_detect (granted_failover granted_recovery : bool)
    (new_pool : string) (w : World) : bool * World :=
  match current_pool (st w) with
  | None => (false, with_state (set_current_pool (Some new_pool)) w)
  | Some old_pool =>
      if String.eqb old_pool new_pool then (false, w)
      else
        (true,
         after_recovery_check granted_recovery new_pool
           (with_state (set_current_pool (Some new_pool))
              (after_failover_alert granted_failover old_pool new_pool w)))
  end.

Definition after_check (granted : bool) (w : World) : World :=
  let window := request_window (st w) in
  if Qlt_bool (inject_Z (Z.of_nat (length window)))
              (inject_Z (Z.of_nat (WINDOW_SIZE cfg)) * (1 # 10))
  then w
  else
    match get_error_rate window with
    | Ok error_rate =>
        if Qlt_bool (ERROR_RATE_THRESHOLD cfg) error_rate then
          if granted then
            with_event
              (EvSlack "error_rate"
                 (ErrorRateData error_rate (str_or (current_pool (st w)) "Unknown")))
              (gate_granted clock "error_rate" w)
          else gate_denied "error_rate" (negb (MAINTENANCE_MODE cfg)) w
        else w
    | Raise _ => w
    end.

Definition after_add (status : Z) (pool : string) (w : World) : World :=
  {| st := set_total_requests (total_requests (st w) + 1)
             (set_request_window
                (deque_append (WINDOW_SIZE cfg) (request_window (st w))
                   {| status := status; obs_pool := pool;
                      timestamp := clock (tick w) |}) (st w));
     tick := S (tick w);
     trace := trace w |}.

Definition after_line (granted_failover granted_recovery granted_error : bool)
    (r : LogRecord) (w : World) : World :=
  let w1 := after_add (upstream_status r) (pool r) w in
  let w2 := snd (after_detect granted_failover granted_recovery (pool r) w1) in
  if (total_requests (st w2) mod 10 =? 0)%nat then after_check granted_error w2
  else w2.

End Outcomes.

(** The events of a list of alerts, each with the gate's answer. *)
Definition events_of (alerts : list (string * bool * Payload)) : list Event :=
  flat_map (fun a => alert_events (fst (fst a)) (snd (fst a)) (snd a)) alerts.

(** The durations reported by the recovery alerts of a trace. *)
Fixpoint recovery_durations (events : list Event) : list Q :=
  match events with
  | [] => []
  | EvSlack _ (RecoveryData _ d) :: rest => d :: recovery_durations rest
  | _ :: rest => recovery_durations rest
  end.

(** The start of the failover, if any, is a reading the clock gave before. *)
Definition start_in_past (clock : nat -> Q) (w : World) : Prop :=
  match failover_start_time (st w) with
  | None => True
  | Some t => exists k, (k < tick w)%nat /\ t = clock k
  end.



(** An alert carries the data of its type, and a recovery names a pool
    that starts with "blue". *)
Definition alert_ok (a : string * bool * Payload) : bool :=
  match snd a with
  | FailoverData _ _ => String.eqb (fst (fst a)) "failover"
  | ErrorRateData _ _ => String.eqb (fst (fst a)) "error_rate"
  | RecoveryData p _ =>
      String.eqb (fst (fst a)) "recovery" && startswith (lower p) "blue"
  end.

Definition event_type (e : Event) : string :=
  match e with
  | EvGate alert_type _ => alert_type
  | EvSlack alert_type _ => alert_type
  end.

(** ** The alerts of each step, given what the gate answered *)

Section Alerts.

Variable cfg : Config.
Variable clock : nat -> Q.

Definition detect_alerts (granted_failover granted_recovery : bool)
    (new_pool : string) (w : World) : list (string * bool * Payload) :=
  match current_pool (st w) with
  | None => []
  | Some old_pool =>
      if String.eqb old_pool new_pool then []
      else
        let at_test :=
          with_state (set_current_pool (Some new_pool))
            (after_failover_alert cfg clock granted_failover old_pool new_pool w) in
        ("failover", granted_failover, FailoverData old_pool new_pool)
          :: (if recovery_condition new_pool (st at_test) then
                [("recovery", granted_recovery,
                  RecoveryData new_pool (recovery_duration clock at_test))]
              else [])
  end.

Definition check_alerts (granted : bool) (w : World)
    : list (string * bool * Payload) :=
  let window := request_window (st w) in
  if Qlt_bool (inject_Z (Z.of_nat (length window)))
              (inject_Z (Z.of_nat (WINDOW_SIZE cfg)) * (1 # 10))
  then []
  else
    match get_error_rate window with
    | Ok error_rate =>
        if Qlt_bool (ERROR_RATE_THRESHOLD cfg) error_rate then
          [("error_rate", granted,
            ErrorRateData error_rate (str_or (current_pool (st w)) "Unknown"))]
        else []
    | Raise _ => []
    end.

Definition line_alerts (granted_failover granted_recovery granted_error : bool)
    (r : LogRecord) (w : World) : list (string * bool * Payload) :=
  let w1 := after_add cfg clock (upstream_status r) (pool r) w in
  let w2 := snd (after_detect cfg clock granted_failover granted_recovery (pool r) w1) in
  detect_alerts granted_failover granted_recovery (pool r) w1
    ++ (if (total_requests (st w2) mod 10 =? 0)%nat
        then check_alerts granted_error w2 else []).

End Alerts.

(** The window is as long as the counter says, up to the capacity. *)
Definition window_counted (cfg : Config) (w : World) : Prop :=
  length (request_window (st w))
    = Nat.min (total_requests (st w)) (WINDOW_SIZE cfg).

(** The start of the failover lies in the past and no recovery reported so
    far has a negative duration. *)
Definition durations_sound (clock : nat -> Q) (w : World) : Prop :=
  start_in_past clock w /\
  Forall (fun d => (0 <= d)%Q) (recovery_durations (trace w)).

(** ** The texts of the messages (lines 185 and 198-199) *)

(** [int(x)] for a float: the fraction is dropped, towards zero. *)
Definition int_of_float (q : Q) : Z :=
  if Qle_bool 0 q then Qfloor q else Qceiling q.

(** [str(n)], also what an f-string makes of an int. *)
Definition str_of_int (z : Z) : string := NilZero.string_of_int (Z.to_int z).

(** [create_recovery_message]: [divmod(int(duration), 60)] and the text made
    of the two numbers. *)
Definition duration_str (duration : Q) : string :=
  let n := int_of_float duration in
  let minutes := (n / 60)%Z in
  let seconds := (n mod 60)%Z in
  if (0 <? minutes)%Z
  then str_of_int minutes +:+ "m " +:+ str_of_int seconds +:+ "s"
  else str_of_int seconds +:+ "s".

(** [create_error_rate_message]: [active_pool.split('-')[0].lower()], the
    service named in the hint. *)
Definition service_name (active_pool : string) : Res string :=
  res_bind (getitem (split active_pool "-") 0) (fun s => Ok (lower s)).

(** ** Counting deliveries *)






(** * Properties *)

Ltac run_monad :=
  cbv [bind ret gets modify emit lift time_time send_slack_alert] in *; cbn [fst snd st tick trace] in *.

(** ** The alert gate *)

Section GateFacts.

Variable cfg : Config.
Variable clock : nat -> Q.

Lemma can_send_alert_maintenance alert_type w :
  MAINTENANCE_MODE cfg = true ->
  can_send_alert cfg clock alert_type w = (Ok false, gate_denied alert_type false w).
Proof.
  intros Hm. unfold can_send_alert. rewrite Hm. reflexivity.
Qed.

Lemma can_send_alert_normal alert_type w :
  MAINTENANCE_MODE cfg = false ->
  can_send_alert cfg clock alert_type w =
    if Qle_bool (inject_Z (ALERT_COOLDOWN_SEC cfg)) (elapsed clock alert_type w)
    then (Ok true, gate_granted clock alert_type w)
    else (Ok false, gate_denied alert_type true w).
Proof.
  intros Hm. unfold can_send_alert, elapsed. rewrite Hm. run_monad.
  destruct (Qle_bool _ _); reflexivity.
Qed.

(** The gate returns a boolean, whatever the configuration. *)
Lemma can_send_alert_total alert_type w :
  exists b, fst (can_send_alert cfg clock alert_type w) = Ok b.
Proof.
  destruct (MAINTENANCE_MODE cfg) eqn:Hm.
  - rewrite can_send_alert_maintenance by assumption. eauto.
  - rewrite can_send_alert_normal by assumption.
    destruct (Qle_bool _ _); eauto.
Qed.

Lemma gate_true_iff alert_type w :
  MAINTENANCE_MODE cfg = false ->
  fst (can_send_alert cfg clock alert_type w) = Ok true <->
  (inject_Z (ALERT_COOLDOWN_SEC cfg) <= elapsed clock alert_type w)%Q.
Proof.
  intros Hm. rewrite can_send_alert_normal by assumption.
  destruct (Qle_bool _ _) eqn:Hle; cbn [fst].
  - apply Qle_bool_iff in Hle. tauto.
  - apply not_true_iff_false in Hle. rewrite Qle_bool_iff in Hle.
    split; [discriminate | tauto].
Qed.


(** Only a granted call changes the state, and it changes one entry. *)
Lemma gate_true_world alert_type w :
  fst (can_send_alert cfg clock alert_type w) = Ok true ->
  snd (can_send_alert cfg clock alert_type w) = gate_granted clock alert_type w.
Proof.
  destruct (MAINTENANCE_MODE cfg) eqn:Hm.
  - rewrite can_send_alert_maintenance by assumption. discriminate.
  - rewrite can_send_alert_normal by assumption.
    destruct (Qle_bool _ _); [reflexivity | discriminate].
Qed.

Lemma gate_false_world alert_type w :
  fst (can_send_alert cfg clock alert_type w) = Ok false ->
  snd (can_send_alert cfg clock alert_type w) =
    gate_denied alert_type (negb (MAINTENANCE_MODE cfg)) w.
Proof.
  destruct (MAINTENANCE_MODE cfg) eqn:Hm.
  - rewrite can_send_alert_maintenance by assumption. reflexivity.
  - rewrite can_send_alert_normal by assumption.
    destruct (Qle_bool _ _); [discriminate | reflexivity].
Qed.


End GateFacts.




(** C8: in maintenance mode the gate returns false for every alert type and
    every state of the timers (a first call included), and the call leaves
    the last-sent times, and the whole watcher state, as they were; the
    clock is not even read. *)
Theorem can_send_alert_maintenance_override :
  forall (cfg : Config) (clock : nat -> Q) (alert_type : string) (w : World),
    MAINTENANCE_MODE cfg = true ->
    fst (can_send_alert cfg clock alert_type w) = Ok false /\
    last_alert_times (st (snd (can_send_alert cfg clock alert_type w)))
      = last_alert_times (st w) /\
    st (snd (can_send_alert cfg clock alert_type w)) = st w /\
    tick (snd (can_send_alert cfg clock alert_type w)) = tick w.
Proof.
  intros cfg clock alert_type w Hm.
  rewrite can_send_alert_maintenance by assumption.
  repeat split.
Qed.

Lemma can_send_alert_maintenance_override_witness :
  MAINTENANCE_MODE maintenance_config = true /\
  fst (can_send_alert maintenance_config wall_clock "recovery" fresh_world)
    = Ok false /\
  last_alert_times
    (st (snd (can_send_alert maintenance_config wall_clock "recovery" fresh_world)))
    = last_alert_times (st fresh_world).
Proof.
  pose proof (can_send_alert_maintenance_override maintenance_config wall_clock
                "recovery" fresh_world eq_refl) as (Hr & Hl & _).
  split; [reflexivity|]. split; [exact Hr | exact Hl].
Defined.

(** ** The sliding window *)

Section WindowFacts.

Variable cfg : Config.
Variable clock : nat -> Q.

Lemma observations_length t calls : length (observations clock t calls) = length calls.
Proof.
  revert t. induction calls as [|[s p] rest IH]; intros t; cbn; [reflexivity|].
  now rewrite IH.
Qed.

Lemma add_request_world status pool w :
  add_request cfg clock status pool w =
    (Ok tt,
     {| st := set_total_requests (total_requests (st w) + 1)
                (set_request_window
                   (deque_append (WINDOW_SIZE cfg) (request_window (st w))
                      {| status := status; obs_pool := pool;
                         timestamp := clock (tick w) |}) (st w));
        tick := S (tick w);
        trace := trace w |}).
Proof. reflexivity. Qed.

End WindowFacts.

Lemma last_n_length {A : Type} cap (l : list A) :
  length (last_n cap l) = Nat.min (length l) cap.
Proof. unfold last_n. rewrite length_skipn. lia. Qed.

Lemma tl_skipn {A : Type} n (l : list A) : tl (skipn n l) = skipn (S n) l.
Proof.
  revert n. induction l as [|x l IH]; intros [|n]; cbn; try reflexivity.
  apply IH.
Qed.

(** Appending to a deque that holds the last [cap] items of a history gives
    the last [cap] items of the longer history. *)
Lemma deque_append_last_n {A : Type} cap (history : list A) (x : A) :
  deque_append cap (last_n cap history) x = last_n cap (history ++ [x]).
Proof.
  unfold deque_append, last_n.
  rewrite length_app, length_app, length_skipn. cbn [length].
  destruct (Nat.ltb_spec cap (length history - (length history - cap) + 1)) as [Hlt|Hge].
  - assert (Hcap : (cap <= length history)%nat) by lia.
    rewrite <- (drop_app_le history [x]) by lia.
    rewrite tl_skipn. f_equal. lia.
  - assert (Hcap : (length history < cap)%nat) by lia.
    replace (length history - cap)%nat with 0%nat by lia.
    replace (length history + 1 - cap)%nat with 0%nat by lia.
    reflexivity.
Qed.

Lemma add_requests_cons cfg clock status pool rest w :
  add_requests cfg clock ((status, pool) :: rest) w =
  add_requests cfg clock rest
    {| st := set_total_requests (total_requests (st w) + 1)
               (set_request_window
                  (deque_append (WINDOW_SIZE cfg) (request_window (st w))
                     {| status := status; obs_pool := pool;
                        timestamp := clock (tick w) |}) (st w));
       tick := S (tick w);
       trace := trace w |}.
Proof. reflexivity. Qed.

(** The invariant of the window along a sequence of calls: if the window
    holds the last [cap] items of some history, it does so afterwards. *)
Lemma add_requests_history cfg clock calls :
  forall (w : World) (history : list Observation),
    request_window (st w) = last_n (WINDOW_SIZE cfg) history ->
    let w' := snd (add_requests cfg clock calls w) in
    fst (add_requests cfg clock calls w) = Ok tt /\
    request_window (st w') =
      last_n (WINDOW_SIZE cfg) (history ++ observations clock (tick w) calls) /\
    total_requests (st w') = (total_requests (st w) + length calls)%nat /\
    tick w' = (tick w + length calls)%nat /\
    trace w' = trace w /\
    current_pool (st w') = current_pool (st w) /\
    last_alert_times (st w') = last_alert_times (st w) /\
    failover_start_time (st w') = failover_start_time (st w).
Proof.
  induction calls as [|[s p] rest IH]; intros w history Hw.
  - cbn. rewrite app_nil_r. repeat split; try assumption; lia.
  - rewrite add_requests_cons. cbn [observations].
    set (w1 := {| st := _; tick := S (tick w); trace := trace w |}).
    specialize (IH w1 (history ++ [{| status := s; obs_pool := p;
                                      timestamp := clock (tick w) |}])).
    assert (Hw1 : request_window (st w1) =
                  last_n (WINDOW_SIZE cfg)
                    (history ++ [{| status := s; obs_pool := p;
                                    timestamp := clock (tick w) |}])).
    { subst w1. cbn. rewrite Hw. apply deque_append_last_n. }
    specialize (IH Hw1). cbv zeta in IH.
    destruct IH as (Hr & Hwin & Htot & Htick & Htr & Hcp & Hla & Hfs).
    cbv zeta. rewrite <- app_assoc in Hwin. cbn [app] in Hwin.
    subst w1. cbn [st tick trace total_requests set_total_requests
                   set_request_window current_pool last_alert_times
                   failover_start_time] in *.
    repeat split; try assumption.
    + rewrite Htot. cbn [length]. lia.
    + rewrite Htick. cbn [length]. lia.
Qed.

(** C2: for every sequence of [add_request] calls on an empty window of
    capacity [WINDOW_SIZE], the window afterwards holds exactly the last
    [min (calls made) capacity] observations created, oldest first; its
    length is that minimum; and after every prefix of the calls its length
    is at most the capacity. *)
Theorem window_fifo_invariant :
  forall (cfg : Config) (clock : nat -> Q) (calls : list (Z * string)) (w : World),
    request_window (st w) = [] ->
    let cap := WINDOW_SIZE cfg in
    let made := length calls in
    let window := request_window (st (snd (add_requests cfg clock calls w))) in
    fst (add_requests cfg clock calls w) = Ok tt /\
    length window = Nat.min made cap /\
    window = skipn (made - Nat.min made cap) (observations clock (tick w) calls) /\
    window = skipn (made - cap) (observations clock (tick w) calls) /\
    (forall before after : list (Z * string),
       calls = before ++ after ->
       (length (request_window (st (snd (add_requests cfg clock before w))))
          <= cap)%nat).
Proof.
  intros cfg clock calls w Hw cap made window.
  assert (Hhist : forall cs,
            fst (add_requests cfg clock cs w) = Ok tt /\
            request_window (st (snd (add_requests cfg clock cs w))) =
              last_n cap (observations clock (tick w) cs)).
  { intros cs.
    pose proof (add_requests_history cfg clock cs w []) as H.
    cbn [app] in H. cbv zeta in H.
    destruct H as (Hr & Hwin & _).
    - rewrite Hw. reflexivity.
    - split; assumption. }
  destruct (Hhist calls) as (Hr & Hwin).
  subst window. rewrite Hwin. unfold last_n.
  rewrite observations_length. fold made.
  split; [exact Hr|]. split; [|split; [|split]].
  - rewrite length_skipn, observations_length. fold made. lia.
  - f_equal. lia.
  - reflexivity.
  - intros before after _. destruct (Hhist before) as (_ & Hb).
    rewrite Hb, last_n_length. lia.
Qed.

(** Five requests into a window of capacity three keep the last three. *)
Lemma window_fifo_invariant_witness :
  request_window (st fresh_world) = [] /\
  map status
    (request_window
       (st (snd (add_requests small_config wall_clock
                   [(200, "blue"); (201, "blue"); (502, "blue"); (503, "green");
                    (204, "green")] fresh_world))))
    = [502; 503; 204]%Z.
Proof.
  split; [reflexivity|].
  pose proof (window_fifo_invariant small_config wall_clock
                [(200, "blue"); (201, "blue"); (502, "blue"); (503, "green");
                 (204, "green")]%Z fresh_world eq_refl) as H.
  cbv zeta in H. destruct H as (_ & _ & _ & Hwin & _).
  rewrite Hwin. reflexivity.
Defined.

(** ** Binary64 rounding *)

Lemma round_half_even_nonneg num den :
  (0 <= num)%Z -> (0 < den)%Z -> (0 <= round_half_even num den)%Z.
Proof.
  intros Hn Hd. unfold round_half_even.
  pose proof (Z.div_pos num den Hn Hd) as Hm.
  destruct (2 * (num mod den) ?= den)%Z; [destruct (Z.even _)|..]; lia.
Qed.

(** Rounding does not pass an integer bound. *)
Lemma round_half_even_le num den C :
  (0 < den)%Z -> (num <= C * den)%Z -> (round_half_even num den <= C)%Z.
Proof.
  intros Hd Hle. unfold round_half_even.
  pose proof (Z.div_mod num den ltac:(lia)) as Hdm.
  pose proof (Z.mod_pos_bound num den Hd) as Hr.
  assert (Hm : (num / den <= C)%Z) by nia.
  assert (Hup : (0 < num mod den -> num / den + 1 <= C)%Z) by nia.
  destruct (Z.compare_spec (2 * (num mod den)) den) as [Hc|Hc|Hc].
  - destruct (Z.even _); lia.
  - exact Hm.
  - lia.
Qed.

Lemma b64_exponent_small a d B :
  (0 < a)%Z -> (0 < d)%Z -> (0 < B < 2 ^ 52)%Z -> (a <= B * d)%Z ->
  (b64_exponent a d <= 0)%Z.
Proof.
  intros Ha Hd HB Hle. unfold b64_exponent.
  assert (Hk : (Z.log2 a - Z.log2 d <= 52)%Z).
  { pose proof (Z.log2_le_mono a (B * d) Hle) as H1.
    pose proof (Z.log2_mul_above B d ltac:(lia) ltac:(lia)) as H2.
    assert (H3 : (Z.log2 B < 52)%Z) by (apply Z.log2_lt_pow2; lia).
    lia. }
  destruct (if (0 <=? _)%Z then _ else _); lia.
Qed.

Lemma b64_magnitude_nonneg a d :
  (0 < a)%Z -> (0 < d)%Z -> (0 <= b64_magnitude a d)%Q.
Proof.
  intros Ha Hd. unfold b64_magnitude.
  destruct (Z.leb_spec 0 (b64_exponent a d)) as [He|He].
  - pose proof (round_half_even_nonneg a (d * 2 ^ b64_exponent a d)
                  ltac:(lia) ltac:(apply Z.mul_pos_pos; [lia|apply Z.pow_pos_nonneg; lia])) as H.
    pose proof (Z.pow_pos_nonneg 2 (b64_exponent a d) ltac:(lia) He) as Hp.
    unfold Qle. cbn. nia.
  - rewrite Qred_correct.
    pose proof (Z.pow_pos_nonneg 2 (- b64_exponent a d) ltac:(lia) ltac:(lia)) as Hp.
    pose proof (round_half_even_nonneg (a * 2 ^ (- b64_exponent a d)) d
                  ltac:(nia) Hd) as H.
    unfold Qle. cbn. lia.
Qed.

Lemma b64_magnitude_le a d B :
  (0 < a)%Z -> (0 < d)%Z -> (0 < B < 2 ^ 52)%Z -> (a <= B * d)%Z ->
  (b64_magnitude a d <= inject_Z B)%Q.
Proof.
  intros Ha Hd HB Hle.
  pose proof (b64_exponent_small a d B Ha Hd HB Hle) as He.
  unfold b64_magnitude.
  destruct (Z.leb_spec 0 (b64_exponent a d)) as [He0|He0].
  - assert (E : b64_exponent a d = 0%Z) by lia. rewrite E.
    change (2 ^ 0)%Z with 1%Z. rewrite !Z.mul_1_r.
    rewrite <- Zle_Qle. apply round_half_even_le; assumption.
  - rewrite Qred_correct.
    set (s := (2 ^ (- b64_exponent a d))%Z).
    assert (Hs : (0 < s)%Z) by (apply Z.pow_pos_nonneg; lia).
    pose proof (round_half_even_le (a * s) d (B * s) Hd ltac:(nia)) as H.
    unfold Qle. cbn. rewrite Z2Pos.id by exact Hs. lia.
Qed.

(** The rounding depends on the value only. *)
Lemma b64_nearest_Qeq q1 q2 : (q1 == q2)%Q -> b64_nearest q1 = b64_nearest q2.
Proof. intros H. unfold b64_nearest. now rewrite (Qred_complete _ _ H). Qed.

Lemma Qred_sign q : (0 <= q)%Q -> (0 <= Qnum (Qred q))%Z.
Proof.
  intros H. assert (H' : (0 <= Qred q)%Q) by now rewrite Qred_correct.
  unfold Qle in H'. cbn in H'. lia.
Qed.

Lemma b64_nearest_nonneg q : (0 <= q)%Q -> (0 <= b64_nearest q)%Q.
Proof.
  intros H. pose proof (Qred_sign q H) as Hs. unfold b64_nearest.
  destruct (Qnum (Qred q)) as [|a|a]; [apply Qle_refl| |lia].
  apply b64_magnitude_nonneg; lia.
Qed.

(** Rounding is monotone at the integers below [2 ^ 52]. *)
Lemma b64_nearest_le_int q B :
  (0 < B < 2 ^ 52)%Z -> (0 <= q <= inject_Z B)%Q ->
  (0 <= b64_nearest q <= inject_Z B)%Q.
Proof.
  intros HB [H0 Hq]. split; [now apply b64_nearest_nonneg|].
  assert (Hq' : (Qred q <= inject_Z B)%Q) by now rewrite Qred_correct.
  unfold b64_nearest. destruct (Qred q) as [n dq]. cbn [Qnum Qden].
  unfold Qle in Hq'. cbn in Hq'.
  destruct n as [|a|a].
  - unfold Qle. cbn. lia.
  - apply b64_magnitude_le; lia.
  - pose proof (b64_magnitude_nonneg (Zpos a) (Zpos dq) ltac:(lia) ltac:(lia)) as Hm.
    assert (0 <= inject_Z B)%Q by (unfold Qle; cbn; lia). lra.
Qed.

Lemma times_100_range x : (0 <= x <= 1)%Q -> (0 <= times_100 x <= 100)%Q.
Proof.
  intros Hx. unfold times_100.
  apply (b64_nearest_le_int (x * 100) 100); [split; [lia|reflexivity]|].
  change (inject_Z 100) with 100%Q. lra.
Qed.

Lemma round_half_even_error num den :
  (0 < den)%Z ->
  (2 * Z.abs (round_half_even num den * den - num) <= den)%Z.
Proof.
  intros Hd. unfold round_half_even.
  pose proof (Z.div_mod num den ltac:(lia)) as Hdm.
  pose proof (Z.mod_pos_bound num den Hd) as Hr.
  set (m := (num / den)%Z) in *. set (r := (num mod den)%Z) in *.
  assert (E0 : (m * den - num = - r)%Z) by lia.
  assert (E1 : ((m + 1) * den - num = den - r)%Z) by lia.
  destruct (Z.compare_spec (2 * r) den) as [Hc|Hc|Hc].
  - destruct (Z.even _); [rewrite E0|rewrite E1]; lia.
  - rewrite E0. lia.
  - rewrite E1. lia.
Qed.

Lemma b64_exponent_le a d j :
  (0 < a)%Z -> (0 < d)%Z -> (0 <= j)%Z -> (a <= 2 ^ j * d)%Z ->
  (b64_exponent a d <= j - 52)%Z.
Proof.
  intros Ha Hd Hj Hle. unfold b64_exponent.
  assert (Hk : (Z.log2 a - Z.log2 d <= j)%Z).
  { pose proof (Z.log2_le_mono a (2 ^ j * d) Hle) as H1.
    rewrite Z.mul_comm, Z.log2_mul_pow2 in H1 by lia. lia. }
  destruct (if (0 <=? _)%Z then _ else _); lia.
Qed.

Lemma b64_magnitude_error a d j :
  (0 < a)%Z -> (0 < d)%Z -> (0 <= j <= 52)%Z -> (a <= 2 ^ j * d)%Z ->
  (Qabs (b64_magnitude a d - (a # Z.to_pos d)) <= (2 ^ j # 2 ^ 53))%Q.
Proof.
  intros Ha Hd Hj Hle.
  pose proof (b64_exponent_le a d j Ha Hd ltac:(lia) Hle) as He.
  unfold b64_magnitude.
  destruct (Z.leb_spec 0 (b64_exponent a d)) as [He0|He0].
  - assert (E : b64_exponent a d = 0%Z) by lia.
    assert (Ej : j = 52%Z) by lia. subst j. rewrite E.
    change (2 ^ 0)%Z with 1%Z. rewrite !Z.mul_1_r.
    pose proof (round_half_even_error a d Hd) as H.
    set (m := round_half_even a d) in *.
    apply Qabs_Qle_condition. unfold Qle, Qminus, Qplus, Qopp. cbn.
    rewrite !Z2Pos.id by lia. lia.
  - set (s := (2 ^ (- b64_exponent a d))%Z).
    assert (Hs : (0 < s)%Z) by (apply Z.pow_pos_nonneg; lia).
    assert (Hsj : (2 ^ 52 <= s * 2 ^ j)%Z).
    { unfold s. rewrite <- Z.pow_add_r by lia. apply Z.pow_le_mono_r; lia. }
    pose proof (round_half_even_error (a * s) d Hd) as H.
    set (m := round_half_even (a * s) d) in *.
    assert (Hq : (Qred (m # Z.to_pos s) == (m # Z.to_pos s))%Q) by apply Qred_correct.
    rewrite Hq.
    pose proof (Z.pow_pos_nonneg 2 j ltac:(lia) ltac:(lia)) as Hpj.
    apply Qabs_Qle_condition. unfold Qle, Qminus, Qplus, Qopp. cbn.
    rewrite !Pos2Z.inj_mul, !Z2Pos.id by lia.
    change (2 ^ 52)%Z with 4503599627370496%Z in Hsj.
    split; nia.
Qed.

Lemma b64_nearest_error q j :
  (0 <= j <= 52)%Z -> (0 <= q <= inject_Z (2 ^ j))%Q ->
  (Qabs (b64_nearest q - q) <= (2 ^ j # 2 ^ 53))%Q.
Proof.
  intros Hj [H0 Hq]. pose proof (Qred_sign q H0) as Hs.
  assert (Hq' : (Qred q <= inject_Z (2 ^ j))%Q) by now rewrite Qred_correct.
  assert (E : (q == Qred q)%Q) by (symmetry; apply Qred_correct).
  rewrite E at 2. unfold b64_nearest.
  destruct (Qred q) as [n dq]. cbn [Qnum Qden] in *.
  unfold Qle in Hq'. cbn in Hq'.
  destruct n as [|a|a]; [| |lia].
  - apply Qabs_Qle_condition. pose proof (Z.pow_pos_nonneg 2 j ltac:(lia) ltac:(lia)).
    unfold Qle. cbn. lia.
  - pose proof (b64_magnitude_error (Zpos a) (Zpos dq) j ltac:(lia) ltac:(lia) Hj ltac:(lia)) as H.
    exact H.
Qed.

(** The two roundings of the rate keep it within [2 ^ -45] of the exact
    percentage. *)
Lemma times_100_error x :
  (0 <= x <= 1)%Q ->
  (Qabs (times_100 (b64_nearest x) - x * 100) <= 1 # 2 ^ 45)%Q.
Proof.
  intros Hx.
  pose proof (b64_nearest_error x 0 ltac:(lia) Hx) as H1.
  pose proof (b64_nearest_le_int x 1 ltac:(split; [lia|reflexivity]) Hx) as Hr.
  change (inject_Z 1) with 1%Q in Hr.
  pose proof (b64_nearest_error (b64_nearest x * 100) 7 ltac:(lia)) as H2.
  change (inject_Z (2 ^ 7)) with 128%Q in H2.
  specialize (H2 ltac:(lra)).
  unfold times_100.
  apply Qabs_Qle_condition in H1. apply Qabs_Qle_condition in H2.
  apply Qabs_Qle_condition.
  change (2 ^ 0 # 2 ^ 53)%Q with (1 # 9007199254740992)%Q in H1.
  change (2 ^ 7 # 2 ^ 53)%Q with (128 # 9007199254740992)%Q in H2.
  change (1 # 2 ^ 45)%Q with (1 # 35184372088832)%Q.
  lra.
Qed.

Lemma b64_nearest_0 : b64_nearest 0 = 0%Q.
Proof. reflexivity. Qed.

Lemma b64_nearest_1 : b64_nearest 1 = 1%Q.
Proof. vm_compute. reflexivity. Qed.

Lemma times_100_0 : times_100 0 = 0%Q.
Proof. reflexivity. Qed.

Lemma times_100_1 : times_100 1 = 100%Q.
Proof. vm_compute. reflexivity. Qed.

(** On windows of up to a hundred requests the two roundings give the rate
    that the Standard Library's specification of binary64 arithmetic gives
    for a division followed by a multiplication by 100. *)
Lemma rate_agrees_binary64 (n c : nat) :
  (0 < n <= 100)%nat -> (c <= n)%nat ->
  SF_rate (Z.of_nat c) (Z.of_nat n)
  = Some (times_100
            (b64_nearest (inject_Z (Z.of_nat c) / inject_Z (Z.of_nat n)))).
Proof.
  intros Hn Hc.
  assert (Hall : forallb (fun n => forallb (rate_agrees n) (List.seq 0 (S n)))
                   (List.seq 1 100) = true) by (vm_compute; reflexivity).
  rewrite forallb_forall in Hall.
  specialize (Hall n ltac:(apply in_seq; lia)).
  rewrite forallb_forall in Hall.
  specialize (Hall c ltac:(apply in_seq; lia)).
  unfold rate_agrees in Hall.
  destruct (SF_rate _ _) as [[xn xd]|]; [|discriminate].
  destruct (times_100 _) as [rn rd]. cbn [Qnum Qden] in Hall.
  apply andb_true_iff in Hall as [H1 H2].
  apply Z.eqb_eq in H1. apply Pos.eqb_eq in H2. now subst.
Qed.

(** ** The error rate *)

Lemma is_5xx_iff req : is_5xx req = true <-> is_5xx_status (status req).
Proof. unfold is_5xx, is_5xx_status. rewrite andb_true_iff. lia. Qed.

Lemma error_count_fold window acc :
  fold_left (fun a req => if is_5xx req then (a + 1)%Z else a) window acc
  = (acc + Z.of_nat (length (List.filter is_5xx window)))%Z.
Proof.
  revert acc. induction window as [|req window IH]; intros acc.
  - cbn. lia.
  - cbn [fold_left List.filter]. rewrite IH.
    destruct (is_5xx req); cbn [length]; lia.
Qed.

Lemma error_count_filter window :
  error_count window = Z.of_nat (length (List.filter is_5xx window)).
Proof. unfold error_count. rewrite error_count_fold. reflexivity. Qed.

Lemma filter_all {A : Type} (f : A -> bool) (l : list A) :
  (forall x, In x l -> f x = true) -> List.filter f l = l.
Proof.
  induction l as [|x l IH]; intros H; cbn; [reflexivity|].
  rewrite (H x (or_introl eq_refl)). f_equal. apply IH.
  intros y Hy. apply H. now right.
Qed.

Lemma filter_none {A : Type} (f : A -> bool) (l : list A) :
  (forall x, In x l -> f x = false) -> List.filter f l = [].
Proof.
  induction l as [|x l IH]; intros H; cbn; [reflexivity|].
  rewrite (H x (or_introl eq_refl)). apply IH.
  intros y Hy. apply H. now right.
Qed.

(** The rate on a window that is not empty. *)
Lemma get_error_rate_nonempty window :
  window <> [] ->
  get_error_rate window =
    Ok (times_100
          (b64_nearest
             (inject_Z (Z.of_nat (length (List.filter is_5xx window)))
              / inject_Z (Z.of_nat (length window))))).
Proof.
  intros Hne. unfold get_error_rate, py_truediv.
  destruct window as [|req window]; [congruence|].
  cbn [length Nat.eqb]. rewrite error_count_filter.
  destruct (Z.eqb_spec (Z.of_nat (S (length window))) 0) as [H0|_]; [lia|].
  reflexivity.
Qed.

(** The share of 5xx observations of a window lies between 0 and 1. *)
Lemma error_share_range window :
  window <> [] ->
  (0 <= inject_Z (Z.of_nat (length (List.filter is_5xx window)))
        / inject_Z (Z.of_nat (length window)) <= 1)%Q.
Proof.
  intros Hne.
  pose proof (filter_length_le is_5xx window) as Hle.
  assert (Hlen : (0 < length window)%nat).
  { destruct window; [congruence|cbn; lia]. }
  set (c := length (List.filter is_5xx window)) in *.
  set (n := length window) in *.
  split.
  - apply Qle_shift_div_l; [unfold Qlt; cbn; lia|].
    unfold Qle; cbn; lia.
  - apply Qle_shift_div_r; [unfold Qlt; cbn; lia|].
    unfold Qle; cbn; lia.
Qed.

(** C3: on every window [get_error_rate] returns a number and raises
    nothing; on the empty window the number is exactly 0; otherwise it is
    the count of observations with a status in [500,600) divided by the
    length of the window, times 100, each of the two operations rounded to
    binary64 as float arithmetic rounds it, which keeps the result within
    [2 ^ -45] of the exact percentage and between 0 and 100; it is exactly
    100 when every status of a window that is not empty lies in [500,600),
    and exactly 0 when none does. *)
Theorem get_error_rate_formula :
  forall window : list Observation,
    exists rate : Q,
      get_error_rate window = Ok rate /\
      (window = [] -> rate = 0%Q) /\
      (window <> [] ->
         rate = b64_nearest
                  (b64_nearest
                     (inject_Z (Z.of_nat (length (List.filter is_5xx window)))
                      / inject_Z (Z.of_nat (length window))) * 100)) /\
      (window <> [] ->
         (Qabs (rate
                - inject_Z (Z.of_nat (length (List.filter is_5xx window)))
                  / inject_Z (Z.of_nat (length window)) * 100)
          <= 1 # 2 ^ 45)%Q) /\
      (window <> [] ->
         (forall req, In req window -> is_5xx_status (status req)) ->
         rate = 100%Q) /\
      ((forall req, In req window -> ~ is_5xx_status (status req)) ->
         rate = 0%Q) /\
      (0 <= rate <= 100)%Q.
Proof.
  intros window. destruct window as [|req0 rest] eqn:Hwin.
  - exists 0%Q. repeat split; try congruence; try reflexivity; try lra.
  - rewrite <- Hwin.
    assert (Hne : window <> []) by (rewrite Hwin; discriminate).
    pose proof (error_share_range window Hne) as Hshare.
    assert (Hlenq : ~ (inject_Z (Z.of_nat (length window)) == 0)%Q).
    { intros H. rewrite Hwin in H. unfold Qeq in H. cbn in H. lia. }
    eexists. split; [apply get_error_rate_nonempty; exact Hne|].
    split; [intros; congruence|]. split; [reflexivity|].
    split; [|split; [|split]].
    + intros _. apply times_100_error. exact Hshare.
    + intros _ Hall. rewrite filter_all.
      * rewrite (b64_nearest_Qeq _ 1), b64_nearest_1; [apply times_100_1|].
        field. exact Hlenq.
      * intros x Hx. apply is_5xx_iff. auto.
    + intros Hnone. rewrite filter_none.
      * cbn [length]. change (inject_Z (Z.of_nat 0)) with 0%Q.
        rewrite (b64_nearest_Qeq _ 0); [reflexivity|].
        field. exact Hlenq.
      * intros x Hx. apply not_true_iff_false. rewrite is_5xx_iff. auto.
    + apply times_100_range.
      apply (b64_nearest_le_int _ 1); [split; [lia|reflexivity]|exact Hshare].
Qed.

(** ** Failover and recovery detection *)

Section DetectFacts.

Variable cfg : Config.
Variable clock : nat -> Q.

Lemma failover_alert_granted old_pool new_pool w :
  fst (can_send_alert cfg clock "failover" w) = Ok true ->
  failover_alert cfg clock old_pool new_pool w =
    (Ok tt,
     with_state (set_failover_start_time (Some (clock (S (tick w)))))
       (advance
          (with_event (EvSlack "failover" (FailoverData old_pool new_pool))
             (gate_granted clock "failover" w)))).
Proof.
  intros Hg. pose proof (gate_true_world cfg clock "failover" w Hg) as Hw.
  unfold failover_alert. unfold bind at 1.
  destruct (can_send_alert cfg clock "failover" w) as [r w1].
  cbn [fst snd] in Hg, Hw. subst r w1. reflexivity.
Qed.

Lemma failover_alert_denied old_pool new_pool w :
  fst (can_send_alert cfg clock "failover" w) = Ok false ->
  failover_alert cfg clock old_pool new_pool w =
    (Ok tt, gate_denied "failover" (negb (MAINTENANCE_MODE cfg)) w).
Proof.
  intros Hg. pose proof (gate_false_world cfg clock "failover" w Hg) as Hw.
  unfold failover_alert. unfold bind at 1.
  destruct (can_send_alert cfg clock "failover" w) as [r w1].
  cbn [fst snd] in Hg, Hw. subst r w1. reflexivity.
Qed.

Lemma failover_alert_ok old_pool new_pool w :
  fst (failover_alert cfg clock old_pool new_pool w) = Ok tt.
Proof.
  destruct (can_send_alert_total cfg clock "failover" w) as [[|] Hb].
  - rewrite failover_alert_granted by assumption. reflexivity.
  - rewrite failover_alert_denied by assumption. reflexivity.
Qed.

Lemma recovery_check_skip new_pool w :
  recovery_condition new_pool (st w) = false ->
  recovery_check cfg clock new_pool w = (Ok tt, w).
Proof.
  intros Hc. unfold recovery_check. run_monad. rewrite Hc. reflexivity.
Qed.

Lemma recovery_check_granted new_pool w :
  recovery_condition new_pool (st w) = true ->
  fst (can_send_alert cfg clock "recovery" (advance w)) = Ok true ->
  recovery_check cfg clock new_pool w =
    (Ok tt,
     with_state (set_failover_start_time None)
       (with_event (EvSlack "recovery" (RecoveryData new_pool (recovery_duration clock w)))
          (gate_granted clock "recovery" (advance w)))).
Proof.
  intros Hc Hg.
  pose proof (gate_true_world cfg clock "recovery" (advance w) Hg) as Hw.
  unfold recovery_check. unfold bind at 1. unfold gets at 1. rewrite Hc.
  unfold bind at 1. unfold time_time at 1. fold (advance w).
  unfold bind at 1. unfold gets at 1. unfold bind at 1.
  destruct (can_send_alert cfg clock "recovery" (advance w)) as [r w1].
  cbn [fst snd] in Hg, Hw. subst r w1. reflexivity.
Qed.

Lemma recovery_check_denied new_pool w :
  recovery_condition new_pool (st w) = true ->
  fst (can_send_alert cfg clock "recovery" (advance w)) = Ok false ->
  recovery_check cfg clock new_pool w =
    (Ok tt,
     with_state (set_failover_start_time None)
       (gate_denied "recovery" (negb (MAINTENANCE_MODE cfg)) (advance w))).
Proof.
  intros Hc Hg.
  pose proof (gate_false_world cfg clock "recovery" (advance w) Hg) as Hw.
  unfold recovery_check. unfold bind at 1. unfold gets at 1. rewrite Hc.
  unfold bind at 1. unfold time_time at 1. fold (advance w).
  unfold bind at 1. unfold gets at 1. unfold bind at 1.
  destruct (can_send_alert cfg clock "recovery" (advance w)) as [r w1].
  cbn [fst snd] in Hg, Hw. subst r w1. reflexivity.
Qed.

Lemma recovery_check_ok new_pool w :
  fst (recovery_check cfg clock new_pool w) = Ok tt.
Proof.
  destruct (recovery_condition new_pool (st w)) eqn:Hc.
  - destruct (can_send_alert_total cfg clock "recovery" (advance w)) as [[|] Hb].
    + rewrite recovery_check_granted by assumption. reflexivity.
    + rewrite recovery_check_denied by assumption. reflexivity.
  - rewrite recovery_check_skip by assumption. reflexivity.
Qed.

(** Entering the recovery branch clears the start of the failover, whatever
    the gate says; staying out of it leaves the world alone. *)
Lemma recovery_check_clears new_pool w :
  recovery_condition new_pool (st w) = true ->
  failover_start_time (st (snd (recovery_check cfg clock new_pool w))) = None /\
  current_pool (st (snd (recovery_check cfg clock new_pool w))) = current_pool (st w).
Proof.
  intros Hc.
  destruct (can_send_alert_total cfg clock "recovery" (advance w)) as [[|] Hb].
  - rewrite recovery_check_granted by assumption. split; reflexivity.
  - rewrite recovery_check_denied by assumption. split; reflexivity.
Qed.

Lemma recovery_check_pool new_pool w :
  current_pool (st (snd (recovery_check cfg clock new_pool w))) = current_pool (st w).
Proof.
  destruct (recovery_condition new_pool (st w)) eqn:Hc.
  - apply recovery_check_clears. exact Hc.
  - rewrite recovery_check_skip by assumption. reflexivity.
Qed.

(** The first observation of a pool. *)
Lemma detect_failover_initial new_pool w :
  current_pool (st w) = None ->
  detect_failover cfg clock new_pool w =
    (Ok false, with_state (set_current_pool (Some new_pool)) w).
Proof.
  intros Hc. unfold detect_failover. unfold bind at 1. unfold gets at 1.
  rewrite Hc. reflexivity.
Qed.

(** An observation of the pool already active. *)
Lemma detect_failover_same pool w :
  current_pool (st w) = Some pool ->
  detect_failover cfg clock pool w = (Ok false, w).
Proof.
  intros Hc. unfold detect_failover. unfold bind at 1. unfold gets at 1.
  rewrite Hc. rewrite String.eqb_refl. reflexivity.
Qed.

(** An observation of another pool: the three steps in order. *)
Lemma detect_failover_change old_pool new_pool w :
  current_pool (st w) = Some old_pool ->
  old_pool <> new_pool ->
  detect_failover cfg clock new_pool w =
    (Ok true,
     snd (recovery_check cfg clock new_pool
            (with_state (set_current_pool (Some new_pool))
               (snd (failover_alert cfg clock old_pool new_pool w))))).
Proof.
  intros Hc Hne. unfold detect_failover. unfold bind at 1. unfold gets at 1.
  rewrite Hc. apply String.eqb_neq in Hne. rewrite Hne. cbn [negb].
  unfold bind at 1.
  pose proof (failover_alert_ok old_pool new_pool w) as Hf.
  destruct (failover_alert cfg clock old_pool new_pool w) as [r1 w1].
  cbn [fst snd] in *. subst r1.
  unfold bind at 1. unfold modify at 1. fold (with_state (set_current_pool (Some new_pool)) w1).
  unfold bind at 1.
  pose proof (recovery_check_ok new_pool
                (with_state (set_current_pool (Some new_pool)) w1)) as Hr.
  destruct (recovery_check cfg clock new_pool _) as [r2 w2].
  cbn [fst snd] in *. subst r2. reflexivity.
Qed.

End DetectFacts.



(** C4, as the specification words it, fails: with the default
    configuration, a fresh state and a simulated clock that starts at 100,
    both failover alerts are refused by the gate (fewer than 300 seconds
    since time 0), the start of the failover is never set, and the third
    call makes no recovery attempt. *)
Lemma failover_sequence_without_recovery :
  MAINTENANCE_MODE default_config = false /\
  detect_all default_config sim_clock ["blue"; "green"; "blue"] fresh_world =
    (Ok [false; true; true],
     {| st := set_current_pool (Some "blue") init_state;
        tick := 2;
        trace := [EvGate "failover" false; EvGate "failover" false] |}).
Proof. split; reflexivity. Qed.

Lemma truthy_time_nonzero (t : Q) : ~ (t == 0)%Q -> truthy_time (Some t) = true.
Proof.
  intros Hne. cbn. apply negb_true_iff, not_true_iff_false.
  rewrite Qeq_bool_iff. exact Hne.
Qed.

(** C4 (amended): from the unset state, with maintenance mode off and no
    alert sent before, if the clock reads at least the cooldown at the second
    call and no reading is exactly 0, then observing "blue", "green", "blue"
    gives: no failover, the pool recorded, no alert; then a failover with
    the failover alert granted and sent from blue to green, which sets the
    start of the failover; then a failover with a failover alert attempt
    followed by a recovery alert attempt, after which the start of the
    failover is cleared. *)
Theorem failover_sequence_blue_green_blue :
  forall (cfg : Config) (clock : nat -> Q) (w : World),
    MAINTENANCE_MODE cfg = false ->
    current_pool (st w) = None ->
    last_alert_times (st w) = ∅ ->
    failover_start_time (st w) = None ->
    (inject_Z (ALERT_COOLDOWN_SEC cfg) <= clock (tick w))%Q ->
    (forall n, ~ (clock n == 0)%Q) ->
    let r1 := detect_failover cfg clock "blue" w in
    let r2 := detect_failover cfg clock "green" (snd r1) in
    let r3 := detect_failover cfg clock "blue" (snd r2) in
    (fst r1 = Ok false /\
     current_pool (st (snd r1)) = Some "blue" /\
     trace (snd r1) = trace w) /\
    (fst r2 = Ok true /\
     current_pool (st (snd r2)) = Some "green" /\
     trace (snd r2) =
       trace w ++ alert_events "failover" true (FailoverData "blue" "green") /\
     failover_start_time (st (snd r2)) = Some (clock (S (tick w)))) /\
    (fst r3 = Ok true /\
     current_pool (st (snd r3)) = Some "blue" /\
     failover_start_time (st (snd r3)) = None /\
     exists (granted_failover granted_recovery : bool) (duration : Q),
       trace (snd r3) =
         trace (snd r2)
           ++ alert_events "failover" granted_failover (FailoverData "green" "blue")
           ++ alert_events "recovery" granted_recovery (RecoveryData "blue" duration)).
Proof.
  intros cfg clock w Hm Hpool Hlast Hstart Hclock Hnz r1 r2 r3.
  subst r1 r2 r3.
  rewrite (detect_failover_initial cfg clock "blue" w Hpool). cbn [fst snd].
  split; [repeat split|].
  set (w1 := with_state (set_current_pool (Some "blue")) w).
  assert (Hne12 : "blue" <> "green") by discriminate.
  assert (Hne23 : "green" <> "blue") by discriminate.
  rewrite (detect_failover_change cfg clock "blue" "green" w1 eq_refl Hne12).
  assert (Hg1 : fst (can_send_alert cfg clock "failover" w1) = Ok true).
  { apply gate_true_iff; [exact Hm|]. unfold elapsed. subst w1.
    cbn [with_state st tick set_current_pool last_alert_times].
    rewrite Hlast, lookup_empty. cbn [default]. lra. }
  rewrite (failover_alert_granted cfg clock "blue" "green" w1 Hg1).
  cbn [snd]. rewrite recovery_check_skip by reflexivity. cbn [fst snd].
  set (w2 := with_state (set_current_pool (Some "green")) _).
  split; [repeat split|].
  { subst w2 w1. cbn. rewrite <- app_assoc. reflexivity. }
  rewrite (detect_failover_change cfg clock "green" "blue" w2 eq_refl Hne23).
  cbn [fst snd]. split; [reflexivity|].
  rewrite recovery_check_pool. split; [reflexivity|].
  set (w3 := with_state (set_current_pool (Some "blue")) _).
  assert (Hcond : recovery_condition "blue" (st w3) = true).
  { unfold recovery_condition. apply andb_true_iff. split; [reflexivity|].
    subst w3.
    destruct (can_send_alert_total cfg clock "failover" w2) as [[|] Hb].
    - rewrite (failover_alert_granted cfg clock "green" "blue" w2 Hb).
      cbn. apply (truthy_time_nonzero _ (Hnz _)).
    - rewrite (failover_alert_denied cfg clock "green" "blue" w2 Hb).
      cbn. apply (truthy_time_nonzero _ (Hnz _)). }
  split; [apply recovery_check_clears; exact Hcond|].
  destruct (can_send_alert_total cfg clock "failover" w2) as [gf Hgf].
  destruct (can_send_alert_total cfg clock "recovery" (advance w3)) as [gr Hgr].
  exists gf, gr, (recovery_duration clock w3).
  destruct gr.
  - rewrite (recovery_check_granted cfg clock "blue" w3 Hcond Hgr).
    subst w3. destruct gf.
    + rewrite (failover_alert_granted cfg clock "green" "blue" w2 Hgf).
      cbn. rewrite <- !app_assoc. reflexivity.
    + rewrite (failover_alert_denied cfg clock "green" "blue" w2 Hgf).
      cbn. rewrite <- !app_assoc. reflexivity.
  - rewrite (recovery_check_denied cfg clock "blue" w3 Hcond Hgr).
    subst w3. destruct gf.
    + rewrite (failover_alert_granted cfg clock "green" "blue" w2 Hgf).
      cbn. rewrite <- !app_assoc. reflexivity.
    + rewrite (failover_alert_denied cfg clock "green" "blue" w2 Hgf).
      cbn. rewrite <- !app_assoc. reflexivity.
Qed.

Lemma wall_clock_nonzero (n : nat) : ~ (wall_clock n == 0)%Q.
Proof. unfold wall_clock, Qeq. cbn. lia. Qed.

(** With the default configuration and a wall clock the three observations
    end with the primary pool active and the failover closed. *)
Lemma failover_sequence_blue_green_blue_witness :
  MAINTENANCE_MODE default_config = false /\
  current_pool (st fresh_world) = None /\
  last_alert_times (st fresh_world) = ∅ /\
  failover_start_time (st fresh_world) = None /\
  (inject_Z (ALERT_COOLDOWN_SEC default_config) <= wall_clock (tick fresh_world))%Q /\
  (forall n, ~ (wall_clock n == 0)%Q) /\
  fst (detect_failover default_config wall_clock "green"
         (snd (detect_failover default_config wall_clock "blue" fresh_world)))
    = Ok true /\
  failover_start_time
    (st (snd (detect_failover default_config wall_clock "blue"
           (snd (detect_failover default_config wall_clock "green"
              (snd (detect_failover default_config wall_clock "blue"
                      fresh_world)))))))
    = None.
Proof.
  assert (Hc : (inject_Z (ALERT_COOLDOWN_SEC default_config)
                <= wall_clock (tick fresh_world))%Q).
  { vm_compute. discriminate. }
  pose proof (failover_sequence_blue_green_blue default_config wall_clock
                fresh_world eq_refl eq_refl eq_refl eq_refl Hc wall_clock_nonzero)
    as H.
  cbv zeta in H. destruct H as (_ & (H2 & _) & (_ & _ & H3 & _)).
  do 4 (split; [reflexivity|]).
  split; [exact Hc|]. split; [exact wall_clock_nonzero|].
  split; [exact H2 | exact H3].
Defined.

(** C9, as worded, fails: in the blue, green, blue sequence under a wall
    clock the failover alert of the third call is refused by the cooldown,
    yet the call changes the start of the failover, from set to unset. *)
Lemma denied_failover_still_clears_start :
  let w2 := snd (detect_all default_config wall_clock ["blue"; "green"] fresh_world) in
  let w3 := snd (detect_failover default_config wall_clock "blue" w2) in
  current_pool (st w2) = Some "green" /\
  fst (can_send_alert default_config wall_clock "failover" w2) = Ok false /\
  failover_start_time (st w2) = Some (wall_clock 1) /\
  failover_start_time (st w3) = None /\
  trace w3 = trace w2 ++ [EvGate "failover" false; EvGate "recovery" true;
                          EvSlack "recovery" (RecoveryData "blue" (wall_clock 3 - wall_clock 1))].
Proof. cbv zeta. repeat split. Qed.

(** One observation of another pool whose failover alert the gate refuses. *)
Lemma detect_failover_denied cfg clock old_pool new_pool w :
  current_pool (st w) = Some old_pool ->
  old_pool <> new_pool ->
  fst (can_send_alert cfg clock "failover" w) = Ok false ->
  detect_failover cfg clock new_pool w =
    (Ok true,
     snd (recovery_check cfg clock new_pool
            (with_state (set_current_pool (Some new_pool))
               (gate_denied "failover" (negb (MAINTENANCE_MODE cfg)) w)))).
Proof.
  intros Hc Hne Hd.
  rewrite (detect_failover_change cfg clock old_pool new_pool w Hc Hne).
  rewrite (failover_alert_denied cfg clock old_pool new_pool w Hd).
  reflexivity.
Qed.

Lemma detect_failover_denied_quiet cfg clock old_pool new_pool w :
  current_pool (st w) = Some old_pool ->
  old_pool <> new_pool ->
  fst (can_send_alert cfg clock "failover" w) = Ok false ->
  recovery_condition new_pool (st w) = false ->
  detect_failover cfg clock new_pool w =
    (Ok true,
     with_state (set_current_pool (Some new_pool))
       (gate_denied "failover" (negb (MAINTENANCE_MODE cfg)) w)).
Proof.
  intros Hc Hne Hd Hrc.
  rewrite (detect_failover_denied cfg clock old_pool new_pool w Hc Hne Hd).
  rewrite recovery_check_skip; [reflexivity|exact Hrc].
Qed.

Lemma recovery_condition_unset new_pool s :
  truthy_time (failover_start_time s) = false ->
  recovery_condition new_pool s = false.
Proof. intros H. unfold recovery_condition. rewrite H. apply andb_false_r. Qed.

(** C9 (amended): when a pool change is detected and the gate refuses the
    failover alert, the failover alert step does not touch the start of the
    failover, so the recovery test sees the value from before the call.
    If the test fails on it, in particular if the start was unset, the call
    leaves the start as it was and consults the gate for no recovery alert;
    and a following pool change whose failover alert is refused as well
    makes no recovery attempt either. If the test holds (the new pool starts
    with "blue" and the start was set), a recovery attempt is made and the
    start is cleared. *)
Theorem denied_failover_keeps_start_unset :
  forall (cfg : Config) (clock : nat -> Q) (w : World) (old_pool new_pool : string),
    current_pool (st w) = Some old_pool ->
    old_pool <> new_pool ->
    fst (can_send_alert cfg clock "failover" w) = Ok false ->
    let w' := snd (detect_failover cfg clock new_pool w) in
    (recovery_condition new_pool (st w) = false ->
       failover_start_time (st w') = failover_start_time (st w) /\
       trace w' = trace w ++ [EvGate "failover" false]) /\
    (truthy_time (failover_start_time (st w)) = false ->
       failover_start_time (st w') = failover_start_time (st w) /\
       trace w' = trace w ++ [EvGate "failover" false] /\
       forall next_pool : string,
         new_pool <> next_pool ->
         fst (can_send_alert cfg clock "failover" w') = Ok false ->
         let w'' := snd (detect_failover cfg clock next_pool w') in
         failover_start_time (st w'') = failover_start_time (st w) /\
         trace w'' = trace w ++ [EvGate "failover" false; EvGate "failover" false]) /\
    (recovery_condition new_pool (st w) = true ->
       failover_start_time (st w') = None /\
       exists (granted : bool) (duration : Q),
         trace w' = trace w ++ EvGate "failover" false
                      :: alert_events "recovery" granted (RecoveryData new_pool duration)).
Proof.
  intros cfg clock w old_pool new_pool Hc Hne Hd w'.
  assert (Hquiet : recovery_condition new_pool (st w) = false ->
            w' = with_state (set_current_pool (Some new_pool))
                   (gate_denied "failover" (negb (MAINTENANCE_MODE cfg)) w)).
  { intros Hrc. subst w'.
    rewrite (detect_failover_denied_quiet cfg clock old_pool new_pool w Hc Hne Hd Hrc).
    reflexivity. }
  split; [|split].
  - intros Hrc. rewrite (Hquiet Hrc). split; reflexivity.
  - intros Hun.
    pose proof (recovery_condition_unset new_pool (st w) Hun) as Hrc.
    rewrite (Hquiet Hrc). split; [reflexivity|]. split; [reflexivity|].
    intros next_pool Hne2 Hd2 w''. subst w''.
    set (w1 := with_state (set_current_pool (Some new_pool)) _) in *.
    assert (Hc1 : current_pool (st w1) = Some new_pool) by reflexivity.
    assert (Hrc1 : recovery_condition next_pool (st w1) = false).
    { apply recovery_condition_unset. exact Hun. }
    rewrite (detect_failover_denied_quiet cfg clock new_pool next_pool w1
               Hc1 Hne2 Hd2 Hrc1).
    subst w1. cbn. rewrite <- app_assoc. split; reflexivity.
  - intros Hrc. subst w'.
    rewrite (detect_failover_denied cfg clock old_pool new_pool w Hc Hne Hd).
    cbn [snd].
    set (w1 := with_state (set_current_pool (Some new_pool)) _).
    assert (Hrc1 : recovery_condition new_pool (st w1) = true) by exact Hrc.
    split; [apply recovery_check_clears; exact Hrc1|].
    destruct (can_send_alert_total cfg clock "recovery" (advance w1)) as [gr Hgr].
    exists gr, (recovery_duration clock w1). destruct gr.
    + rewrite (recovery_check_granted cfg clock new_pool w1 Hrc1 Hgr).
      cbn. rewrite <- !app_assoc. reflexivity.
    + rewrite (recovery_check_denied cfg clock new_pool w1 Hrc1 Hgr).
      cbn. rewrite <- !app_assoc. reflexivity.
Qed.

Lemma denied_failover_keeps_start_unset_witness :
  current_pool (st on_primary_world) = Some "blue" /\
  "blue" <> "green" /\
  fst (can_send_alert maintenance_config wall_clock "failover" on_primary_world)
    = Ok false /\
  failover_start_time
    (st (snd (detect_failover maintenance_config wall_clock "green" on_primary_world)))
    = None /\
  trace (snd (detect_failover maintenance_config wall_clock "green" on_primary_world))
    = [EvGate "failover" false].
Proof.
  assert (Hne : "blue" <> "green") by discriminate.
  pose proof (denied_failover_keeps_start_unset maintenance_config wall_clock
                on_primary_world "blue" "green" eq_refl Hne eq_refl) as H.
  cbv zeta in H. destruct H as (_ & Hun & _).
  destruct (Hun eq_refl) as (Hstart & Htrace & _).
  split; [reflexivity|]. split; [exact Hne|]. split; [reflexivity|].
  split; [exact Hstart | exact Htrace].
Defined.

(** ** The error-rate check *)

(** The test of line 292 compares the length with a tenth of the capacity. *)
Lemma window_too_small_iff (n cap : nat) :
  Qlt_bool (inject_Z (Z.of_nat n)) (inject_Z (Z.of_nat cap) * (1 # 10)) = true
  <-> (10 * n < cap)%nat.
Proof.
  unfold Qlt_bool. rewrite negb_true_iff, <- not_true_iff_false, Qle_bool_iff.
  unfold Qle. cbn [Qnum Qden Qmult inject_Z]. lia.
Qed.

Lemma Qlt_bool_iff (a b : Q) : Qlt_bool a b = true <-> (a < b)%Q.
Proof.
  unfold Qlt_bool. rewrite negb_true_iff, <- not_true_iff_false, Qle_bool_iff.
  split; intros H; lra.
Qed.

Lemma get_error_rate_ok window : exists rate, get_error_rate window = Ok rate.
Proof.
  destruct window as [|req rest] eqn:Hw.
  - exists 0%Q. reflexivity.
  - eexists. apply get_error_rate_nonempty. discriminate.
Qed.


(** ** Stripping and splitting *)

Lemma is_empty_iff s : is_empty s = true <-> s = EmptyString.
Proof. destruct s; cbn; split; congruence. Qed.

Lemma is_empty_false_iff s : is_empty s = false <-> s <> EmptyString.
Proof. destruct s; cbn; split; congruence. Qed.

Lemma lstrip_starts_clean s : starts_clean (lstrip s).
Proof.
  induction s as [|c s IH]; cbn; [exact I|].
  destruct (is_space c) eqn:Hc; [exact IH | exact Hc].
Qed.

Lemma starts_clean_lstrip s : starts_clean s -> lstrip s = s.
Proof. destruct s as [|c s]; cbn; [reflexivity|]. intros ->. reflexivity. Qed.

Lemma rstrip_starts_clean s : starts_clean s -> starts_clean (rstrip s).
Proof.
  destruct s as [|c s]; cbn; [trivial|]. intros Hc. rewrite Hc. cbn. exact Hc.
Qed.

Lemma rstrip_idempotent s : rstrip (rstrip s) = rstrip s.
Proof.
  induction s as [|c s IH]; cbn; [reflexivity|].
  destruct (is_space c && is_empty (rstrip s)) eqn:Hc; [reflexivity|].
  cbn. rewrite IH, Hc. reflexivity.
Qed.

Lemma strip_trimmed s : trimmed (strip s).
Proof.
  unfold trimmed, strip. split.
  - apply starts_clean_lstrip, rstrip_starts_clean, lstrip_starts_clean.
  - apply rstrip_idempotent.
Qed.

Lemma strip_idempotent s : strip (strip s) = strip s.
Proof.
  destruct (strip_trimmed s) as [Hl Hr]. unfold strip at 1. now rewrite Hl, Hr.
Qed.

(** Stripping removes white space only, and only at the two ends. *)
Lemma lstrip_decompose s :
  exists l, s = l +:+ lstrip s /\ all_chars is_space l = true.
Proof.
  induction s as [|c s (l & Hs & Hl)]; [exists EmptyString; split; reflexivity|].
  cbn. destruct (is_space c) eqn:Hc.
  - exists (String c l). split.
    + change (String c s = String c (l +:+ lstrip s)). now rewrite <- Hs.
    + cbn. now rewrite Hc, Hl.
  - exists EmptyString. split; reflexivity.
Qed.

Lemma rstrip_decompose s :
  exists r, s = rstrip s +:+ r /\ all_chars is_space r = true.
Proof.
  induction s as [|c s (r & Hs & Hr)]; [exists EmptyString; split; reflexivity|].
  cbn. destruct (is_space c && is_empty (rstrip s)) eqn:Hc.
  - apply andb_true_iff in Hc as [Hc He]. apply is_empty_iff in He.
    rewrite He in Hs. change (s = r) in Hs. subst s.
    exists (String c r). split; [reflexivity|]. cbn. now rewrite Hc, Hr.
  - exists r. split; [|exact Hr].
    change (String c s = String c (rstrip s +:+ r)). now rewrite <- Hs.
Qed.

Lemma strip_decompose s :
  exists l r, s = l +:+ strip s +:+ r /\
              all_chars is_space l = true /\ all_chars is_space r = true.
Proof.
  destruct (lstrip_decompose s) as (l & Hs & Hl).
  destruct (rstrip_decompose (lstrip s)) as (r & Hm & Hr).
  exists l, r. unfold strip. rewrite <- Hm. auto.
Qed.






Lemma count_char_lstrip c s :
  is_space c = false -> count_char c (lstrip s) = count_char c s.
Proof.
  intros Hc. induction s as [|a s IH]; cbn; [reflexivity|].
  destruct (is_space a) eqn:Ha; [|reflexivity].
  destruct (Ascii.eqb_spec a c) as [->|_]; [congruence|]. exact IH.
Qed.

Lemma count_char_rstrip c s :
  is_space c = false -> count_char c (rstrip s) = count_char c s.
Proof.
  intros Hc. induction s as [|a s IH]; cbn; [reflexivity|].
  destruct (is_space a && is_empty (rstrip s)) eqn:Hb.
  - apply andb_true_iff in Hb as [Ha He]. apply is_empty_iff in He.
    rewrite He in IH. cbn in IH. rewrite <- IH.
    destruct (Ascii.eqb_spec a c) as [->|_]; [congruence|]. reflexivity.
  - cbn. now rewrite IH.
Qed.

Lemma count_char_strip c s :
  is_space c = false -> count_char c (strip s) = count_char c s.
Proof.
  intros Hc. unfold strip.
  now rewrite count_char_rstrip, count_char_lstrip.
Qed.

(** A text has one field more than it has separators. *)
Lemma split_length s sep : length (split s sep) = S (count_char sep s).
Proof.
  induction s as [|a s IH]; cbn; [reflexivity|].
  destruct (Ascii.eqb a sep).
  - cbn. now rewrite IH.
  - destruct (split s sep) as [|field rest]; cbn in *; [discriminate|].
    exact IH.
Qed.


(** ** The log-line parser *)

Lemma py_int_raises s e : py_int s = Raise e -> e = ValueError.
Proof.
  unfold py_int. destruct (take_sign (strip s)) as [neg body].
  destruct (digitpart body) as [[[v n] [|c rest]]|]; try congruence.
  destruct (INT_MAX_STR_DIGITS <? n)%nat; congruence.
Qed.

Lemma py_float_raises s e : py_float s = Raise e -> e = ValueError.
Proof.
  unfold py_float. destruct (take_sign (strip s)) as [neg body].
  destruct (_ || _); [discriminate|].
  destruct (String.eqb _ _); [discriminate|].
  destruct (take_number body) as [[[m n] rest]|]; [|congruence].
  destruct (take_exponent rest) as [e' [|c rest']]; try congruence.
  destruct (b64_overflows _); congruence.
Qed.

Lemma int_or_zero_cases x :
  (x = EmptyString /\ int_or_zero x = Ok 0%Z) \/
  (x <> EmptyString /\ exists z, py_int x = Ok z /\ int_or_zero x = Ok z) \/
  (x <> EmptyString /\ py_int x = Raise ValueError /\ int_or_zero x = Raise ValueError).
Proof.
  unfold int_or_zero. destruct x as [|c x]; cbn [is_empty]; [left; auto|].
  right. destruct (py_int (String c x)) as [z|e] eqn:Hp.
  - left. split; [discriminate|]. eauto.
  - right. apply py_int_raises in Hp as He. subst e. split; [discriminate|]. auto.
Qed.

Lemma float_or_zero_cases x :
  (x = EmptyString /\ float_or_zero x = Ok (Finite 0)) \/
  (x <> EmptyString /\ exists f, py_float x = Ok f /\ float_or_zero x = Ok f) \/
  (x <> EmptyString /\ py_float x = Raise ValueError /\ float_or_zero x = Raise ValueError).
Proof.
  unfold float_or_zero. destruct x as [|c x]; cbn [is_empty]; [left; auto|].
  right. destruct (py_float (String c x)) as [f|e] eqn:Hp.
  - left. split; [discriminate|]. eauto.
  - right. apply py_float_raises in Hp as He. subst e. split; [discriminate|]. auto.
Qed.

Lemma parse_log_line_short line :
  (length (split (strip line) "|") < 6)%nat -> parse_log_line line = Ok None.
Proof.
  intros H. unfold parse_log_line. apply Nat.ltb_lt in H. rewrite H. reflexivity.
Qed.

Lemma parse_log_line_long line :
  (6 <= length (split (strip line) "|"))%nat ->
  parse_log_line line =
    try_except
      (res_bind (int_or_zero (field line 2)) (fun status =>
       res_bind (float_or_zero (field line 4)) (fun rt =>
       res_bind (float_or_zero (field line 5)) (fun urt =>
       Ok (Some {| pool := field line 0;
                   release := field line 1;
                   upstream_status := status;
                   upstream_addr := field line 3;
                   request_time := rt;
                   upstream_response_time := urt |})))))
      caught_by_parser
      (fun _ => Ok None).
Proof.
  intros H. unfold parse_log_line, field.
  destruct (Nat.ltb_spec (length (split (strip line) "|")) 6) as [Hlt|_]; [lia|].
  destruct (split (strip line) "|") as [|p0 [|p1 [|p2 [|p3 [|p4 [|p5 rest]]]]]];
    cbn [length] in H; try lia.
  reflexivity.
Qed.


(** [int] takes a text of up to 4300 digits and refuses a longer one, so a
    line with such a status is dropped. *)
Example py_int_digit_limit :
  py_int (digits_text 4300) <> Raise ValueError /\
  py_int (digits_text 4301) = Raise ValueError /\
  parse_log_line ("blue|v1|" +:+ digits_text 4301 +:+ "|a|0.1|0.1") = Ok None.
Proof.
  split; [|split]; [|vm_compute; reflexivity..].
  destruct (py_int (digits_text 4300)) eqn:E; [discriminate|].
  vm_compute in E. discriminate E.
Qed.

(** [float] rounds what it reads: a number beyond the range of binary64 is
    an infinity, one below it is 0, and 0.1 is the float nearest to 1/10. *)
Example py_float_rounds :
  py_float "1e400" = Ok (Infinity false) /\
  py_float "-1e400" = Ok (Infinity true) /\
  py_float "1e-400" = Ok (Finite 0) /\
  py_float "1.7976931348623157e308"
    = Ok (Finite (inject_Z (2 ^ 1024 - 2 ^ 971))) /\
  py_float "0.1" = Ok (Finite (3602879701896397 # 36028797018963968)) /\
  py_float "0.003" = Ok (Finite (b64_nearest (3 # 1000))) /\
  py_float "7" = Ok (Finite 7).
Proof. repeat split; vm_compute; reflexivity. Qed.

(** A line of three fields, and a line whose status is not a number. *)
Example parse_log_line_three_fields : parse_log_line "blue|Blue-v1.0.0|200" = Ok None.
Proof. reflexivity. Qed.

Example parse_log_line_bad_status :
  parse_log_line "blue|Blue-v1.0.0|abc|172.19.0.2:80|0.003|0.002" = Ok None.
Proof. reflexivity. Qed.

(** ** The body of the main loop *)



Section LoopFacts.

Variable cfg : Config.
Variable clock : nat -> Q.






Lemma process_line_rejected line w :
  parse_log_line line = Ok None ->
  process_line cfg clock line w = (Ok tt, w).
Proof.
  intros Hp. unfold process_line. unfold bind at 1. unfold lift at 1.
  rewrite Hp. reflexivity.
Qed.


End LoopFacts.





(** ** Worked examples *)

(** A deque of capacity 0 stays empty. *)
Example deque_append_zero_capacity : deque_append 0 [] 7%Z = [].
Proof. reflexivity. Qed.

(** Under a wall clock, too, a first alert is refused when the cooldown is
    longer than the time since the epoch. *)
Example can_send_alert_long_cooldown :
  fst (can_send_alert
         {| ERROR_RATE_THRESHOLD := 2 # 1; WINDOW_SIZE := 200;
            ALERT_COOLDOWN_SEC := 2000000000; MAINTENANCE_MODE := false |}
         wall_clock "failover" fresh_world) = Ok false.
Proof. reflexivity. Qed.

(** The pool name is matched without regard to case, and by prefix. *)
Example recovery_prefix :
  startswith (lower "Blue-v1.0.0") "blue" = true /\
  startswith (lower "green") "blue" = false.
Proof. split; reflexivity. Qed.

(** One 503 among twenty requests is an error rate of 5 percent, above the
    default threshold: the gate is consulted and the alert is sent. *)
Example check_error_rate_alerts :
  let calls := (503, "blue") :: repeat (200, "blue") 19 in
  let w := snd (add_requests default_config wall_clock calls on_primary_world) in
  get_error_rate (request_window (st w)) = Ok 5%Q /\
  trace (snd (check_error_rate default_config wall_clock w)) =
    [EvGate "error_rate" true;
     EvSlack "error_rate" (ErrorRateData 5 "blue")].
Proof. cbv zeta. split; vm_compute; reflexivity. Qed.

(** Seven 5xx among a hundred requests: [7 / 100] is rounded down to the
    float 0.07 and their product with 100 up, to 7.000000000000001, the
    float next above 7; fourteen among two hundred give the same. *)
Example get_error_rate_seven_percent :
  let w7 := snd (add_requests default_config wall_clock
                   (repeat (503, "blue") 7 ++ repeat (200, "blue") 93)
                   on_primary_world) in
  let w14 := snd (add_requests default_config wall_clock
                    (repeat (503, "blue") 14 ++ repeat (200, "blue") 186)
                    on_primary_world) in
  get_error_rate (request_window (st w7))
    = Ok (7881299347898369 # 1125899906842624)%Q /\
  get_error_rate (request_window (st w14))
    = Ok (7881299347898369 # 1125899906842624)%Q /\
  (7881299347898369 # 1125899906842624 == 7 + (1 # 2 ^ 50))%Q.
Proof. cbv zeta. repeat split; vm_compute; reflexivity. Qed.

(** So with a threshold of 7.0 such a window is above the threshold: the
    gate is consulted and the alert is sent, with that rate. *)
Example check_error_rate_seven_percent :
  let cfg := {| ERROR_RATE_THRESHOLD := 7 # 1; WINDOW_SIZE := 200;
                ALERT_COOLDOWN_SEC := 300; MAINTENANCE_MODE := false |} in
  let w7 := snd (add_requests cfg wall_clock
                   (repeat (503, "blue") 7 ++ repeat (200, "blue") 93)
                   on_primary_world) in
  let w14 := snd (add_requests cfg wall_clock
                    (repeat (503, "blue") 14 ++ repeat (200, "blue") 186)
                    on_primary_world) in
  trace (snd (check_error_rate cfg wall_clock w7)) =
    [EvGate "error_rate" true;
     EvSlack "error_rate"
       (ErrorRateData (7881299347898369 # 1125899906842624) "blue")] /\
  trace (snd (check_error_rate cfg wall_clock w14)) =
    [EvGate "error_rate" true;
     EvSlack "error_rate"
       (ErrorRateData (7881299347898369 # 1125899906842624) "blue")].
Proof. cbv zeta. split; vm_compute; reflexivity. Qed.

(** A rate that is a float below the threshold, or the threshold itself,
    triggers nothing: six 5xx among a hundred requests give exactly 6.0. *)
Example check_error_rate_six_percent :
  let cfg := {| ERROR_RATE_THRESHOLD := 6 # 1; WINDOW_SIZE := 200;
                ALERT_COOLDOWN_SEC := 300; MAINTENANCE_MODE := false |} in
  let w := snd (add_requests cfg wall_clock
                  (repeat (503, "blue") 6 ++ repeat (200, "blue") 94)
                  on_primary_world) in
  get_error_rate (request_window (st w)) = Ok 6%Q /\
  trace (snd (check_error_rate cfg wall_clock w)) = [].
Proof. cbv zeta. split; vm_compute; reflexivity. Qed.

(** Nineteen requests are fewer than a tenth of 200: nothing happens. *)
Example check_error_rate_cold_start :
  let calls := repeat (503, "blue") 19 in
  let w := snd (add_requests default_config wall_clock calls on_primary_world) in
  trace (snd (check_error_rate default_config wall_clock w)) = [] /\
  tick (snd (check_error_rate default_config wall_clock w)) = tick w.
Proof. cbv zeta. split; vm_compute; reflexivity. Qed.

(** A failover alert refused with the start of the failover unset does not
    keep the next return to the primary pool from a recovery attempt: once
    the cooldown has run out the failover alert of that return is granted,
    the start is set, and the recovery branch is entered in the same call. *)
Example recovery_attempt_after_refused_failover :
  let w4 := snd (detect_all default_config flapping_clock
                   ["blue"; "green"; "blue"; "green"] fresh_world) in
  let w5 := snd (detect_failover default_config flapping_clock "blue" w4) in
  failover_start_time (st w4) = None /\
  trace w4 =
    [EvGate "failover" true; EvSlack "failover" (FailoverData "blue" "green");
     EvGate "failover" false;
     EvGate "recovery" true;
     EvSlack "recovery" (RecoveryData "blue" (flapping_clock 3 - flapping_clock 1));
     EvGate "failover" false] /\
  trace w5 =
    trace w4 ++
    [EvGate "failover" true; EvSlack "failover" (FailoverData "green" "blue");
     EvGate "recovery" true;
     EvSlack "recovery" (RecoveryData "blue" (flapping_clock 8 - flapping_clock 7))].
Proof. cbv zeta. split; [|split]; vm_compute; reflexivity. Qed.

(** * Further properties *)

(** ** The parser and white space *)

Lemma lstrip_rstrip_comm s : lstrip (rstrip s) = rstrip (lstrip s).
Proof.
  induction s as [|a s IH]; [reflexivity|].
  cbn [lstrip rstrip]. destruct (is_space a) eqn:Ha; cbn [andb].
  - destruct (is_empty (rstrip s)) eqn:He.
    + apply is_empty_iff in He. rewrite <- IH, He. reflexivity.
    + cbn [lstrip]. rewrite Ha. exact IH.
  - cbn [lstrip rstrip]. destruct (is_space a); [discriminate | reflexivity].
Qed.

Lemma strip_space_head a s : is_space a = true -> strip (String a s) = strip s.
Proof. intros Ha. unfold strip. cbn [lstrip]. now rewrite Ha. Qed.

Lemma all_space_rstrip s : all_chars is_space s = true -> rstrip s = EmptyString.
Proof.
  induction s as [|a s IH]; cbn; [reflexivity|].
  intros H. apply andb_true_iff in H as [Ha Hs]. rewrite Ha, (IH Hs). reflexivity.
Qed.

Lemma lstrip_app_space l s :
  all_chars is_space l = true -> lstrip (l +:+ s) = lstrip s.
Proof.
  induction l as [|a l IH]; [reflexivity|].
  cbn [all_chars]. intros H. apply andb_true_iff in H as [Ha Hl].
  change (String a l +:+ s) with (String a (l +:+ s)).
  cbn [lstrip]. rewrite Ha. auto.
Qed.

Lemma rstrip_app_space s r :
  all_chars is_space r = true -> rstrip (s +:+ r) = rstrip s.
Proof.
  intros Hr. induction s as [|a s IH].
  - apply all_space_rstrip, Hr.
  - change (String a s +:+ r) with (String a (s +:+ r)).
    cbn [rstrip]. rewrite IH. reflexivity.
Qed.

Lemma strip_surrounded l s r :
  all_chars is_space l = true -> all_chars is_space r = true ->
  strip (l +:+ s +:+ r) = strip s.
Proof.
  intros Hl Hr. unfold strip. rewrite lstrip_app_space by assumption.
  rewrite <- lstrip_rstrip_comm, rstrip_app_space by assumption.
  apply lstrip_rstrip_comm.
Qed.

(** X13: white space around a line, such as the newline that ends it, does
    not change what the line parses to, nor what the loop body does with it. *)
Theorem parse_log_line_ignores_surrounding_space :
  forall (cfg : Config) (clock : nat -> Q) (l line r : string) (w : World),
    all_chars is_space l = true ->
    all_chars is_space r = true ->
    parse_log_line (l +:+ line +:+ r) = parse_log_line line /\
    process_line cfg clock (l +:+ line +:+ r) w = process_line cfg clock line w.
Proof.
  intros cfg clock l line r w Hl Hr.
  assert (Hp : parse_log_line (l +:+ line +:+ r) = parse_log_line line).
  { unfold parse_log_line. rewrite strip_surrounded by assumption. reflexivity. }
  split; [exact Hp|]. unfold process_line. rewrite Hp. reflexivity.
Qed.

Lemma parse_log_line_ignores_surrounding_space_witness :
  all_chars is_space "  " = true /\
  all_chars is_space (String "010" EmptyString) = true /\
  parse_log_line ("  " +:+ "blue|v1|502|10.0.0.1:80|0.1|0.2" +:+ String "010" EmptyString)
    = parse_log_line "blue|v1|502|10.0.0.1:80|0.1|0.2".
Proof.
  split; [reflexivity|]. split; [reflexivity|].
  apply (parse_log_line_ignores_surrounding_space default_config wall_clock
           "  " "blue|v1|502|10.0.0.1:80|0.1|0.2" (String "010" EmptyString)
           fresh_world eq_refl eq_refl).
Defined.

(** ** The parser reads six stripped fields and nothing else *)

Lemma split_nonempty s sep : split s sep <> [].
Proof.
  pose proof (split_length s sep) as H. destruct (split s sep); [discriminate H | discriminate].
Qed.

Lemma split_single s sep f : split s sep = [f] -> f = s.
Proof.
  revert f. induction s as [|a s IH]; intros f; cbn [split].
  - intros [= <-]. reflexivity.
  - destruct (Ascii.eqb a sep).
    + intros H. pose proof (split_nonempty s sep) as Hne.
      destruct (split s sep); [congruence | discriminate H].
    + destruct (split s sep) as [|f' rest] eqn:Hs.
      * exfalso. eapply split_nonempty, Hs.
      * intros [= <- ->]. f_equal. apply IH. reflexivity.
Qed.

Lemma split_lstrip s sep :
  is_space sep = false ->
  split (lstrip s) sep = on_first lstrip (split s sep).
Proof.
  intros Hsep. induction s as [|a s IH]; [reflexivity|].
  cbn [lstrip]. destruct (is_space a) eqn:Ha.
  - rewrite IH. cbn [split].
    destruct (Ascii.eqb_spec a sep) as [->|_]; [congruence|].
    destruct (split s sep) as [|f rest] eqn:Hs.
    + exfalso. eapply split_nonempty, Hs.
    + cbn [on_first lstrip]. rewrite Ha. reflexivity.
  - cbn [split]. destruct (Ascii.eqb a sep); [reflexivity|].
    destruct (split s sep) as [|f rest]; cbn [on_first lstrip]; now rewrite Ha.
Qed.

Lemma on_last_cons {A : Type} (f : A -> A) (x : A) (l : list A) :
  l <> [] -> on_last f (x :: l) = x :: on_last f l.
Proof. destruct l; [congruence | reflexivity]. Qed.

Lemma on_last_length {A : Type} (f : A -> A) (l : list A) :
  length (on_last f l) = length l.
Proof.
  induction l as [|x [|y rest] IH]; [reflexivity | reflexivity |].
  change (length (x :: on_last f (y :: rest)) = length (x :: y :: rest)).
  cbn [length]. now rewrite IH.
Qed.

Lemma split_rstrip s sep :
  is_space sep = false ->
  split (rstrip s) sep = on_last rstrip (split s sep).
Proof.
  intros Hsep. induction s as [|a s IH]; [reflexivity|].
  cbn [rstrip]. destruct (is_space a && is_empty (rstrip s)) eqn:Hc.
  - apply andb_true_iff in Hc as [Ha He]. apply is_empty_iff in He.
    rewrite He in IH. cbn [split] in IH |- *.
    destruct (Ascii.eqb_spec a sep) as [->|_]; [congruence|].
    destruct (split s sep) as [|f [|g rest]] eqn:Hs.
    + discriminate IH.
    + injection IH as IH. cbn [on_last rstrip]. now rewrite Ha, <- IH.
    + apply (f_equal (@length string)) in IH. rewrite on_last_length in IH.
      discriminate IH.
  - cbn [split]. destruct (Ascii.eqb a sep) eqn:Hsa.
    + rewrite IH. rewrite on_last_cons by apply split_nonempty. reflexivity.
    + rewrite IH. destruct (split s sep) as [|f [|g rest]] eqn:Hs.
      * exfalso. eapply split_nonempty, Hs.
      * cbn [on_last rstrip]. apply split_single in Hs. subst f.
        now rewrite Hc.
      * reflexivity.
Qed.

Lemma strip_lstrip x : strip (lstrip x) = strip x.
Proof.
  unfold strip. now rewrite (starts_clean_lstrip _ (lstrip_starts_clean x)).
Qed.

Lemma strip_rstrip x : strip (rstrip x) = strip x.
Proof.
  unfold strip. now rewrite lstrip_rstrip_comm, rstrip_idempotent.
Qed.

Lemma map_strip_on_first l : map strip (on_first lstrip l) = map strip l.
Proof. destruct l; [reflexivity|]. cbn. now rewrite strip_lstrip. Qed.

Lemma map_strip_on_last l : map strip (on_last rstrip l) = map strip l.
Proof.
  induction l as [|x [|y rest] IH]; [reflexivity | cbn; now rewrite strip_rstrip |].
  change (map strip (x :: on_last rstrip (y :: rest)) = map strip (x :: y :: rest)).
  cbn [map]. now rewrite IH.
Qed.

(** Stripping the whole line first changes no stripped field. *)
Lemma stripped_fields_strip line :
  map strip (split (strip line) "|") = stripped_fields line.
Proof.
  unfold stripped_fields, strip.
  rewrite split_rstrip, map_strip_on_last by reflexivity.
  rewrite split_lstrip, map_strip_on_first by reflexivity.
  reflexivity.
Qed.

Lemma parse_log_line_via_fields line :
  parse_log_line line = parse_fields (firstn 6 (stripped_fields line)).
Proof.
  assert (Hlen : length (stripped_fields line) = length (split (strip line) "|")).
  { rewrite <- stripped_fields_strip. apply length_map. }
  destruct (Nat.lt_ge_cases (length (split (strip line) "|")) 6) as [Hs|Hl].
  - rewrite parse_log_line_short by assumption.
    unfold parse_fields. rewrite length_firstn, Hlen.
    destruct (Nat.ltb_spec (Nat.min 6 (length (split (strip line) "|"))) 6);
      [reflexivity | lia].
  - rewrite parse_log_line_long by assumption.
    unfold parse_fields. rewrite length_firstn, Hlen.
    destruct (Nat.ltb_spec (Nat.min 6 (length (split (strip line) "|"))) 6);
      [lia|].
    assert (Hnth : forall i, (i < 6)%nat ->
              nth i (firstn 6 (stripped_fields line)) EmptyString = field line i).
    { intros i Hi. rewrite nth_firstn.
      destruct (Nat.ltb_spec i 6); [|lia].
      rewrite <- stripped_fields_strip. unfold field.
      change EmptyString with (strip EmptyString) at 1. apply map_nth. }
    rewrite !Hnth by lia. reflexivity.
Qed.

(** X18: what a line parses to depends only on its first six fields, each
    taken without the white space around it. *)
Theorem parse_log_line_reads_six_stripped_fields :
  forall line1 line2 : string,
    firstn 6 (stripped_fields line1) = firstn 6 (stripped_fields line2) ->
    parse_log_line line1 = parse_log_line line2.
Proof.
  intros line1 line2 H. rewrite !parse_log_line_via_fields, H. reflexivity.
Qed.

Lemma parse_log_line_reads_six_stripped_fields_witness :
  firstn 6 (stripped_fields " blue | v1 |502| 10.0.0.1:80 |0.1 | 0.2|tail")
    = firstn 6 (stripped_fields "blue|v1|502|10.0.0.1:80|0.1|0.2") /\
  parse_log_line " blue | v1 |502| 10.0.0.1:80 |0.1 | 0.2|tail"
    = parse_log_line "blue|v1|502|10.0.0.1:80|0.1|0.2".
Proof.
  split; [reflexivity|].
  apply (parse_log_line_reads_six_stripped_fields
           " blue | v1 |502| 10.0.0.1:80 |0.1 | 0.2|tail"
           "blue|v1|502|10.0.0.1:80|0.1|0.2" eq_refl).
Defined.

Lemma split_app_sep a b sep :
  split (a +:+ String sep b) sep = split a sep ++ split b sep.
Proof.
  induction a as [|c a IH].
  - change (EmptyString +:+ String sep b) with (String sep b).
    cbn [split]. rewrite Ascii.eqb_refl. reflexivity.
  - change (String c a +:+ String sep b) with (String c (a +:+ String sep b)).
    cbn [split]. rewrite IH. destruct (Ascii.eqb c sep); [reflexivity|].
    destruct (split a sep) as [|f rest] eqn:Hs; [|reflexivity].
    exfalso. eapply split_nonempty, Hs.
Qed.

(** X14: fields after the sixth are ignored: adding a separator and any
    text to a line that has six fields already changes nothing. *)
Theorem parse_log_line_ignores_extra_fields :
  forall line extra : string,
    (5 <= count_char "|" line)%nat ->
    parse_log_line (line +:+ String "|" extra) = parse_log_line line.
Proof.
  intros line extra Hcount.
  rewrite !parse_log_line_via_fields. f_equal.
  unfold stripped_fields. rewrite split_app_sep, map_app, firstn_app.
  rewrite length_map, split_length.
  replace (6 - S (count_char "|" line))%nat with 0%nat by lia.
  cbn [firstn]. apply app_nil_r.
Qed.

Lemma parse_log_line_ignores_extra_fields_witness :
  (5 <= count_char "|" "blue|v1|502|10.0.0.1:80|0.1|0.2")%nat /\
  parse_log_line "blue|v1|502|10.0.0.1:80|0.1|0.2|GET /|curl"
    = parse_log_line "blue|v1|502|10.0.0.1:80|0.1|0.2".
Proof.
  assert (H : (5 <= count_char "|" "blue|v1|502|10.0.0.1:80|0.1|0.2")%nat)
    by (vm_compute; lia).
  split; [exact H|].
  apply (parse_log_line_ignores_extra_fields
           "blue|v1|502|10.0.0.1:80|0.1|0.2" "GET /|curl" H).
Defined.

(** ** What [int] accepts *)

Lemma digit_val_int_char c d : digit_val c = Some d -> int_char c = true.
Proof. unfold int_char. now intros ->. Qed.

Lemma digits_tail_consumes s :
  (forall acc len v n,
      digits_tail acc len s = (v, n, EmptyString) -> all_chars int_char s = true) /\
  (forall c acc len v n,
      digits_tail acc len (String c s) = (v, n, EmptyString) ->
      all_chars int_char (String c s) = true).
Proof.
  induction s as [|a s [IH1 IH2]].
  - split; [reflexivity|]. intros c acc len v n. cbn [digits_tail all_chars].
    destruct (digit_val c) eqn:Hc.
    + intros _. now rewrite (digit_val_int_char _ _ Hc).
    + destruct (Ascii.eqb c "_"); discriminate.
  - split; [apply IH2|]. intros c acc len v n.
    cbn [digits_tail]. change (all_chars int_char (String c (String a s)))
      with (int_char c && all_chars int_char (String a s)).
    destruct (digit_val c) eqn:Hc.
    + intros H. rewrite (digit_val_int_char _ _ Hc). eapply IH2, H.
    + destruct (Ascii.eqb c "_") eqn:Hu; [|discriminate].
      destruct (digit_val a) eqn:Ha; [|discriminate].
      intros H. cbn [all_chars]. rewrite (digit_val_int_char _ _ Ha).
      unfold int_char at 1. rewrite Hc, Hu. cbn. eapply IH1, H.
Qed.

Lemma digitpart_consumes s v n :
  digitpart s = Some (v, n, EmptyString) -> all_chars int_char s = true.
Proof.
  destruct s as [|c s]; [discriminate|]. cbn [digitpart all_chars].
  destruct (digit_val c) eqn:Hc; [|discriminate].
  intros [= H]. rewrite (digit_val_int_char _ _ Hc).
  eapply (proj1 (digits_tail_consumes s)), H.
Qed.

(** Whatever [int] accepts is made of digits, underscores and signs, once
    the white space around it is gone. *)
Lemma py_int_accepts_int_chars s z :
  py_int s = Ok z -> all_chars int_char (strip s) = true.
Proof.
  unfold py_int. destruct (take_sign (strip s)) as [neg body] eqn:Hsign.
  destruct (digitpart body) as [[[v n] [|c rest]]|] eqn:Hd; try discriminate.
  intros _. apply digitpart_consumes in Hd.
  unfold take_sign in Hsign.
  destruct (strip s) as [|c t]; [injection Hsign as <- <-; exact Hd|].
  destruct (Ascii.eqb_spec c "-") as [->|Hm].
  { injection Hsign as <- <-. cbn [all_chars]. now rewrite Hd. }
  destruct (Ascii.eqb_spec c "+") as [->|Hp].
  { injection Hsign as <- <-. cbn [all_chars]. now rewrite Hd. }
  assert (Hbody : body = String c t).
  { destruct c as [[] [] [] [] [] [] [] []]; try (injection Hsign as <- <-; reflexivity);
      congruence. }
  now subst body.
Qed.

(** X15: a line whose stripped status field holds any character other than
    a digit, an underscore or a sign is rejected, whatever the other fields
    are; a status such as "502, 200" makes the line unparseable. *)
Theorem parse_log_line_rejects_status_text :
  forall line : string,
    all_chars int_char (field line 2) = false ->
    parse_log_line line = Ok None.
Proof.
  intros line Hbad.
  destruct (Nat.lt_ge_cases (length (split (strip line) "|")) 6) as [Hs|Hl].
  - apply parse_log_line_short, Hs.
  - rewrite parse_log_line_long by assumption.
    destruct (int_or_zero_cases (field line 2))
      as [(E2 & _)|[(_ & z & P2 & _)|(_ & _ & ->)]].
    + rewrite E2 in Hbad. discriminate Hbad.
    + apply py_int_accepts_int_chars in P2.
      unfold field in P2 at 1. rewrite strip_idempotent in P2.
      fold (field line 2) in P2. congruence.
    + reflexivity.
Qed.

Lemma parse_log_line_rejects_status_text_witness :
  all_chars int_char
    (field "blue|v1|502, 200|10.0.0.1:80, 10.0.0.2:80|0.1|0.2" 2) = false /\
  parse_log_line "blue|v1|502, 200|10.0.0.1:80, 10.0.0.2:80|0.1|0.2" = Ok None.
Proof.
  split; [reflexivity|].
  apply (parse_log_line_rejects_status_text
           "blue|v1|502, 200|10.0.0.1:80, 10.0.0.2:80|0.1|0.2" eq_refl).
Defined.

(** ** Each step is one of a few outcomes *)

Section OutcomeFacts.

Variable cfg : Config.
Variable clock : nat -> Q.

Lemma can_send_alert_outcome alert_type w :
  exists granted,
    can_send_alert cfg clock alert_type w
      = (Ok granted, after_gate cfg clock alert_type granted w) /\
    (MAINTENANCE_MODE cfg = true -> granted = false) /\
    (MAINTENANCE_MODE cfg = false ->
       granted = Qle_bool (inject_Z (ALERT_COOLDOWN_SEC cfg))
                   (elapsed clock alert_type w)).
Proof.
  destruct (MAINTENANCE_MODE cfg) eqn:Hm.
  - exists false. rewrite can_send_alert_maintenance by assumption.
    unfold after_gate. rewrite Hm. repeat split; congruence.
  - rewrite can_send_alert_normal by assumption.
    exists (Qle_bool (inject_Z (ALERT_COOLDOWN_SEC cfg)) (elapsed clock alert_type w)).
    unfold after_gate. rewrite Hm.
    destruct (Qle_bool _ _); repeat split; congruence.
Qed.

Lemma failover_alert_outcome old_pool new_pool w :
  exists granted,
    failover_alert cfg clock old_pool new_pool w
      = (Ok tt, after_failover_alert cfg clock granted old_pool new_pool w) /\
    fst (can_send_alert cfg clock "failover" w) = Ok granted /\
    (MAINTENANCE_MODE cfg = true -> granted = false).
Proof.
  destruct (can_send_alert_outcome "failover" w) as (g & Hrun & Hm & _).
  exists g. assert (Hg : fst (can_send_alert cfg clock "failover" w) = Ok g)
    by now rewrite Hrun.
  split; [|split; assumption]. destruct g.
  - apply failover_alert_granted, Hg.
  - apply failover_alert_denied, Hg.
Qed.

Lemma recovery_check_outcome new_pool w :
  exists granted,
    recovery_check cfg clock new_pool w
      = (Ok tt, after_recovery_check cfg clock granted new_pool w) /\
    (MAINTENANCE_MODE cfg = true -> granted = false).
Proof.
  unfold after_recovery_check.
  destruct (recovery_condition new_pool (st w)) eqn:Hc.
  - destruct (can_send_alert_outcome "recovery" (advance w)) as (g & Hrun & Hm & _).
    exists g. assert (Hg : fst (can_send_alert cfg clock "recovery" (advance w)) = Ok g)
      by now rewrite Hrun.
    split; [|assumption]. destruct g.
    + now apply recovery_check_granted.
    + now apply recovery_check_denied.
  - exists false. split; [now apply recovery_check_skip | reflexivity].
Qed.

Lemma detect_failover_outcome new_pool w :
  exists granted_failover granted_recovery,
    detect_failover cfg clock new_pool w =
      (Ok (fst (after_detect cfg clock granted_failover granted_recovery new_pool w)),
       snd (after_detect cfg clock granted_failover granted_recovery new_pool w)) /\
    (MAINTENANCE_MODE cfg = true ->
       granted_failover = false /\ granted_recovery = false).
Proof.
  unfold after_detect.
  destruct (current_pool (st w)) as [old_pool|] eqn:Hc.
  - destruct (String.eqb_spec old_pool new_pool) as [->|Hne].
    + exists false, false. split; [now apply detect_failover_same | auto].
    + rewrite (detect_failover_change cfg clock old_pool new_pool w Hc Hne).
      destruct (failover_alert_outcome old_pool new_pool w) as (gf & -> & _ & Hmf).
      cbn [snd].
      destruct (recovery_check_outcome new_pool
                  (with_state (set_current_pool (Some new_pool))
                     (after_failover_alert cfg clock gf old_pool new_pool w)))
        as (gr & -> & Hmr).
      exists gf, gr. split; [reflexivity | auto].
  - exists false, false. split; [now apply detect_failover_initial | auto].
Qed.

Lemma check_error_rate_outcome w :
  exists granted,
    check_error_rate cfg clock w = (Ok tt, after_check cfg clock granted w) /\
    (MAINTENANCE_MODE cfg = true -> granted = false).
Proof.
  unfold check_error_rate, after_check. unfold bind at 1. unfold gets at 1.
  destruct (Qlt_bool _ _); [exists false; split; reflexivity|].
  destruct (get_error_rate_ok (request_window (st w))) as [rate Hrate].
  unfold bind at 1. unfold lift at 1. rewrite Hrate.
  destruct (Qlt_bool _ rate); [|exists false; split; reflexivity].
  unfold bind at 1.
  destruct (can_send_alert_outcome "error_rate" w) as (g & -> & Hm & _).
  exists g. split; [|assumption]. destruct g; reflexivity.
Qed.

Lemma process_line_outcome line r w :
  parse_log_line line = Ok (Some r) ->
  exists granted_failover granted_recovery granted_error,
    process_line cfg clock line w =
      (Ok tt,
       after_line cfg clock granted_failover granted_recovery granted_error r w) /\
    (MAINTENANCE_MODE cfg = true ->
       granted_failover = false /\ granted_recovery = false /\
       granted_error = false).
Proof.
  intros Hp. unfold process_line, after_line. unfold bind at 1. unfold lift at 1.
  rewrite Hp. cbv beta iota zeta.
  unfold bind at 1. rewrite add_request_world.
  fold (after_add cfg clock (upstream_status r) (pool r) w).
  set (w1 := after_add cfg clock (upstream_status r) (pool r) w).
  cbv beta iota. unfold bind at 1.
  destruct (detect_failover_outcome (pool r) w1) as (gf & gr & -> & Hmd).
  set (w2 := snd (after_detect cfg clock gf gr (pool r) w1)).
  cbv beta iota. unfold bind at 1. unfold gets at 1. cbv beta iota.
  unfold bind at 1.
  assert (Hcheck : exists ge,
            (if (total_requests (st w2) mod 10 =? 0)%nat
             then check_error_rate cfg clock else ret tt) w2
            = (Ok tt, if (total_requests (st w2) mod 10 =? 0)%nat
                      then after_check cfg clock ge w2 else w2) /\
            (MAINTENANCE_MODE cfg = true -> ge = false)).
  { destruct (total_requests (st w2) mod 10 =? 0)%nat.
    - apply check_error_rate_outcome.
    - exists false. split; reflexivity. }
  destruct Hcheck as (ge & -> & Hme).
  set (w3 := if (total_requests (st w2) mod 10 =? 0)%nat
             then after_check cfg clock ge w2 else w2).
  cbv beta iota. unfold bind at 1. unfold gets at 1. cbv beta iota.
  assert (Hlast :
            (if (total_requests (st w3) mod 50 =? 0)%nat
             then window <- gets request_window;;
                  lift (get_error_rate window);; ret tt
             else ret tt) w3 = (Ok tt, w3)).
  { destruct (total_requests (st w3) mod 50 =? 0)%nat; [|reflexivity].
    unfold bind at 1. unfold gets at 1. unfold bind at 1. unfold lift at 1.
    destruct (get_error_rate_ok (request_window (st w3))) as [rate ->].
    reflexivity. }
  rewrite Hlast. exists gf, gr, ge. split; [reflexivity|].
  intros Hm. destruct (Hmd Hm). auto.
Qed.

Lemma parse_log_line_total line : exists result, parse_log_line line = Ok result.
Proof.
  destruct (Nat.lt_ge_cases (length (split (strip line) "|")) 6) as [Hs|Hl].
  - rewrite parse_log_line_short by assumption. eauto.
  - rewrite parse_log_line_long by assumption.
    destruct (int_or_zero_cases (field line 2))
      as [(_ & ->)|[(_ & z & _ & ->)|(_ & _ & ->)]];
    destruct (float_or_zero_cases (field line 4))
      as [(_ & ->)|[(_ & f4 & _ & ->)|(_ & _ & ->)]];
    destruct (float_or_zero_cases (field line 5))
      as [(_ & ->)|[(_ & f5 & _ & ->)|(_ & _ & ->)]];
    cbn; eauto.
Qed.

(** The body of the loop always completes. *)
Lemma process_line_total line w :
  exists w', process_line cfg clock line w = (Ok tt, w').
Proof.
  destruct (parse_log_line_total line) as [[r|] Hp].
  - destruct (process_line_outcome line r w Hp) as (gf & gr & ge & -> & _). eauto.
  - rewrite process_line_rejected by assumption. eauto.
Qed.

Lemma main_loop_cons line rest w :
  main_loop cfg clock (line :: rest) w =
  main_loop cfg clock rest (snd (process_line cfg clock line w)).
Proof.
  cbn [main_loop]. unfold bind at 1.
  destruct (process_line_total line w) as [w' ->]. reflexivity.
Qed.

(** A property of the world that every line preserves holds after the loop. *)
Lemma main_loop_preserves (P : World -> Prop) :
  (forall line w, P w -> P (snd (process_line cfg clock line w))) ->
  forall lines w, P w -> P (snd (main_loop cfg clock lines w)).
Proof.
  intros Hstep lines. induction lines as [|line rest IH]; intros w Hw.
  - exact Hw.
  - rewrite main_loop_cons. apply IH, Hstep, Hw.
Qed.

End OutcomeFacts.


(** ** What the loop keeps count of *)

Section LoopCounting.

Variable cfg : Config.
Variable clock : nat -> Q.

Lemma after_recovery_check_frame g new_pool w :
  request_window (st (after_recovery_check cfg clock g new_pool w))
    = request_window (st w) /\
  total_requests (st (after_recovery_check cfg clock g new_pool w))
    = total_requests (st w) /\
  current_pool (st (after_recovery_check cfg clock g new_pool w))
    = current_pool (st w).
Proof.
  unfold after_recovery_check.
  destruct (recovery_condition new_pool (st w)), g; repeat split.
Qed.

Lemma after_detect_frame gf gr new_pool w :
  request_window (st (snd (after_detect cfg clock gf gr new_pool w)))
    = request_window (st w) /\
  total_requests (st (snd (after_detect cfg clock gf gr new_pool w)))
    = total_requests (st w) /\
  current_pool (st (snd (after_detect cfg clock gf gr new_pool w)))
    = Some new_pool.
Proof.
  unfold after_detect. destruct (current_pool (st w)) as [old_pool|] eqn:Hc.
  - destruct (String.eqb_spec old_pool new_pool) as [->|Hne].
    + cbn [snd]. auto.
    + cbn [snd].
      destruct (after_recovery_check_frame gr new_pool
                  (with_state (set_current_pool (Some new_pool))
                     (after_failover_alert cfg clock gf old_pool new_pool w)))
        as (-> & -> & ->).
      unfold after_failover_alert. destruct gf; repeat split.
  - repeat split.
Qed.

Lemma after_check_frame g w :
  request_window (st (after_check cfg clock g w)) = request_window (st w) /\
  total_requests (st (after_check cfg clock g w)) = total_requests (st w) /\
  current_pool (st (after_check cfg clock g w)) = current_pool (st w) /\
  failover_start_time (st (after_check cfg clock g w)) = failover_start_time (st w).
Proof.
  unfold after_check. destruct (Qlt_bool _ _); [auto|].
  destruct (get_error_rate _) as [rate|]; [|auto].
  destruct (Qlt_bool _ rate); [|auto]. destruct g; repeat split.
Qed.

Lemma after_line_frame gf gr ge r w :
  request_window (st (after_line cfg clock gf gr ge r w))
    = deque_append (WINDOW_SIZE cfg) (request_window (st w))
        {| status := upstream_status r; obs_pool := pool r;
           timestamp := clock (tick w) |} /\
  total_requests (st (after_line cfg clock gf gr ge r w))
    = (total_requests (st w) + 1)%nat /\
  current_pool (st (after_line cfg clock gf gr ge r w)) = Some (pool r).
Proof.
  unfold after_line. cbv zeta.
  set (w1 := after_add cfg clock (upstream_status r) (pool r) w).
  destruct (after_detect_frame gf gr (pool r) w1) as (Hw & Ht & Hp).
  destruct (_ =? 0)%nat.
  - destruct (after_check_frame ge (snd (after_detect cfg clock gf gr (pool r) w1)))
      as (-> & -> & -> & _).
    rewrite Hw, Ht, Hp. repeat split.
  - rewrite Hw, Ht, Hp. repeat split.
Qed.




End LoopCounting.




(** ** What the loop sends *)

Lemma events_of_app a b : events_of (a ++ b) = events_of a ++ events_of b.
Proof. unfold events_of. apply flat_map_app. Qed.

Section AlertFacts.

Variable cfg : Config.
Variable clock : nat -> Q.

Lemma after_detect_trace gf gr new_pool w :
  trace (snd (after_detect cfg clock gf gr new_pool w))
    = trace w ++ events_of (detect_alerts cfg clock gf gr new_pool w).
Proof.
  unfold after_detect, detect_alerts.
  destruct (current_pool (st w)) as [old_pool|]; [|cbn; now rewrite app_nil_r].
  destruct (String.eqb old_pool new_pool); [cbn; now rewrite app_nil_r|].
  cbv zeta. cbn [snd]. unfold after_recovery_check.
  destruct (recovery_condition new_pool _).
  - destruct gf, gr; cbn; rewrite <- ?app_assoc; reflexivity.
  - destruct gf; cbn; rewrite <- ?app_assoc; reflexivity.
Qed.

Lemma after_check_trace g w :
  trace (after_check cfg clock g w)
    = trace w ++ events_of (check_alerts cfg g w).
Proof.
  unfold after_check, check_alerts. cbv zeta.
  destruct (Qlt_bool _ _); [cbn; now rewrite app_nil_r|].
  destruct (get_error_rate _) as [rate|]; [|cbn; now rewrite app_nil_r].
  destruct (Qlt_bool _ rate); [|cbn; now rewrite app_nil_r].
  destruct g; cbn; rewrite <- ?app_assoc; reflexivity.
Qed.

Lemma after_line_trace gf gr ge r w :
  trace (after_line cfg clock gf gr ge r w)
    = trace w ++ events_of (line_alerts cfg clock gf gr ge r w).
Proof.
  unfold after_line, line_alerts. cbv zeta.
  set (w1 := after_add cfg clock (upstream_status r) (pool r) w).
  rewrite events_of_app, app_assoc.
  change (trace w) with (trace w1). rewrite <- after_detect_trace.
  destruct (_ =? 0)%nat.
  - apply after_check_trace.
  - cbn. now rewrite app_nil_r.
Qed.

Lemma detect_alerts_ok gf gr new_pool w :
  Forall (fun a => alert_ok a = true /\ fst (fst a) <> "error_rate")
    (detect_alerts cfg clock gf gr new_pool w).
Proof.
  unfold detect_alerts.
  destruct (current_pool (st w)) as [old_pool|]; [|constructor].
  destruct (String.eqb old_pool new_pool); [constructor|].
  cbv zeta. constructor; [split; [reflexivity | discriminate]|].
  destruct (recovery_condition new_pool _) eqn:Hc; [|constructor].
  constructor; [|constructor]. split; [|discriminate].
  unfold recovery_condition in Hc. apply andb_true_iff in Hc as [Hb _].
  unfold alert_ok. cbn. exact Hb.
Qed.

Lemma check_alerts_ok g w :
  Forall (fun a => alert_ok a = true) (check_alerts cfg g w).
Proof.
  unfold check_alerts. cbv zeta.
  destruct (Qlt_bool _ _); [constructor|].
  destruct (get_error_rate _) as [rate|]; [|constructor].
  destruct (Qlt_bool _ rate); [|constructor].
  constructor; [reflexivity | constructor].
Qed.

Lemma line_alerts_ok gf gr ge r w :
  Forall (fun a => alert_ok a = true) (line_alerts cfg clock gf gr ge r w).
Proof.
  unfold line_alerts. cbv zeta. apply Forall_app. split.
  - eapply Forall_impl; [apply detect_alerts_ok|]. now intros a [H _].
  - destruct (_ =? 0)%nat; [apply check_alerts_ok | constructor].
Qed.

Lemma line_alerts_refused r w :
  Forall (fun a => snd (fst a) = false)
    (line_alerts cfg clock false false false r w).
Proof.
  unfold line_alerts. cbv zeta. apply Forall_app. split.
  - unfold detect_alerts.
    destruct (current_pool _) as [old_pool|]; [|constructor].
    destruct (String.eqb old_pool _); [constructor|]. cbv zeta.
    constructor; [reflexivity|].
    destruct (recovery_condition _ _); repeat constructor.
  - destruct (_ =? 0)%nat; [|constructor]. unfold check_alerts. cbv zeta.
    destruct (Qlt_bool _ _); [constructor|].
    destruct (get_error_rate _) as [rate|]; [|constructor].
    destruct (Qlt_bool _ rate); repeat constructor.
Qed.

Lemma events_of_refused alerts :
  Forall (fun a => snd (fst a) = false) alerts ->
  Forall (fun e => exists alert_type, e = EvGate alert_type false) (events_of alerts).
Proof.
  induction 1 as [|[[ty g] d] rest Hg _ IH]; [constructor|].
  cbn in Hg. subst g. cbn. constructor; [eauto | exact IH].
Qed.

(** When every answer of the gate is no, a line changes no timer and leaves
    an unset start of the failover unset. *)
Lemma after_line_refused r w :
  last_alert_times (st (after_line cfg clock false false false r w))
    = last_alert_times (st w) /\
  (failover_start_time (st w) = None ->
   failover_start_time (st (after_line cfg clock false false false r w)) = None).
Proof.
  unfold after_line. cbv zeta.
  set (w1 := after_add cfg clock (upstream_status r) (pool r) w).
  assert (Hd : last_alert_times
                 (st (snd (after_detect cfg clock false false (pool r) w1)))
               = last_alert_times (st w) /\
               (failover_start_time (st w) = None ->
                failover_start_time
                  (st (snd (after_detect cfg clock false false (pool r) w1))) = None)).
  { unfold after_detect.
    destruct (current_pool (st w1)) as [old_pool|]; [|split; auto].
    destruct (String.eqb old_pool _); [split; auto|].
    cbn [snd]. unfold after_recovery_check.
    destruct (recovery_condition _ _); split; auto. }
  destruct Hd as [Hl Hf].
  destruct (_ =? 0)%nat; [|split; assumption].
  destruct (after_check_frame cfg clock false
              (snd (after_detect cfg clock false false (pool r) w1)))
    as (_ & _ & _ & ->).
  split; [|exact Hf]. rewrite <- Hl.
  unfold after_check. destruct (Qlt_bool _ _); [reflexivity|].
  destruct (get_error_rate _) as [rate|]; [|reflexivity].
  destruct (Qlt_bool _ rate); reflexivity.
Qed.

End AlertFacts.

(** X5: every delivery follows a grant: the events the loop adds to the
    trace are, alert after alert, one answer of the gate followed, exactly
    when the answer is yes, by one delivery of the same type; the data
    delivered is the data of that type, and a recovery always names a pool
    that starts with "blue". *)
Theorem main_loop_sends_only_what_the_gate_grants :
  forall (cfg : Config) (clock : nat -> Q) (lines : list string) (w : World),
    exists alerts : list (string * bool * Payload),
      trace (snd (main_loop cfg clock lines w)) = trace w ++ events_of alerts /\
      Forall (fun a => alert_ok a = true) alerts.
Proof.
  intros cfg clock lines. induction lines as [|line rest IH]; intros w.
  - exists []. cbn. split; [now rewrite app_nil_r | constructor].
  - rewrite main_loop_cons.
    destruct (IH (snd (process_line cfg clock line w))) as (later & Htr & Hok).
    destruct (parse_log_line_total line) as [[r|] Hp].
    + destruct (process_line_outcome cfg clock line r w Hp)
        as (gf & gr & ge & Hrun & _).
      rewrite Hrun in Htr |- *. cbn [snd] in Htr |- *.
      exists (line_alerts cfg clock gf gr ge r w ++ later).
      rewrite Htr, after_line_trace, events_of_app, app_assoc.
      split; [reflexivity|]. apply Forall_app. split; [apply line_alerts_ok | exact Hok].
    + rewrite process_line_rejected in Htr |- * by assumption.
      exists later. split; assumption.
Qed.

(** X4: in maintenance mode the loop sends nothing: whatever the lines, the
    events it adds are refusals of the gate only, no timer of any alert type
    changes, and an unset start of the failover stays unset. *)
Theorem main_loop_silent_in_maintenance :
  forall (cfg : Config) (clock : nat -> Q) (lines : list string) (w : World),
    MAINTENANCE_MODE cfg = true ->
    let w' := snd (main_loop cfg clock lines w) in
    last_alert_times (st w') = last_alert_times (st w) /\
    (failover_start_time (st w) = None -> failover_start_time (st w') = None) /\
    exists events,
      trace w' = trace w ++ events /\
      Forall (fun e => exists alert_type, e = EvGate alert_type false) events.
Proof.
  intros cfg clock lines w Hm. cbv zeta. revert w.
  induction lines as [|line rest IH]; intros w.
  - split; [reflexivity|]. split; [auto|]. exists []. cbn.
    split; [now rewrite app_nil_r | constructor].
  - rewrite main_loop_cons.
    destruct (IH (snd (process_line cfg clock line w)))
      as (Hl & Hf & later & Htr & Hev).
    destruct (parse_log_line_total line) as [[r|] Hp].
    + destruct (process_line_outcome cfg clock line r w Hp)
        as (gf & gr & ge & Hrun & Hmm).
      destruct (Hmm Hm) as (-> & -> & ->).
      rewrite Hrun in Hl, Hf, Htr |- *. cbn [snd] in Hl, Hf, Htr |- *.
      destruct (after_line_refused cfg clock r w) as [Hl1 Hf1].
      split; [congruence|]. split; [auto|].
      exists (events_of (line_alerts cfg clock false false false r w) ++ later).
      rewrite Htr, after_line_trace, app_assoc. split; [reflexivity|].
      apply Forall_app. split; [|exact Hev].
      apply events_of_refused, line_alerts_refused.
    + rewrite process_line_rejected in Hl, Hf, Htr |- * by assumption.
      split; [exact Hl|]. split; [exact Hf|]. exists later. split; assumption.
Qed.

Lemma main_loop_silent_in_maintenance_witness :
  MAINTENANCE_MODE maintenance_config = true /\
  trace (snd (main_loop maintenance_config wall_clock
                ["blue|v1|200|a|0.1|0.1"; "green|v1|502|b|0.1|0.1";
                 "blue|v1|200|a|0.1|0.1"] fresh_world))
    = [EvGate "failover" false; EvGate "failover" false] /\
  last_alert_times
    (st (snd (main_loop maintenance_config wall_clock
                ["blue|v1|200|a|0.1|0.1"; "green|v1|502|b|0.1|0.1";
                 "blue|v1|200|a|0.1|0.1"] fresh_world)))
    = ∅.
Proof.
  pose proof (main_loop_silent_in_maintenance maintenance_config wall_clock
                ["blue|v1|200|a|0.1|0.1"; "green|v1|502|b|0.1|0.1";
                 "blue|v1|200|a|0.1|0.1"] fresh_world eq_refl) as H.
  cbv zeta in H. destruct H as (Hl & _ & _).
  split; [reflexivity|]. split; [vm_compute; reflexivity | exact Hl].
Defined.

(** ** Cold start *)

Lemma deque_append_length {A : Type} cap (d : list A) (x : A) :
  (length d <= cap)%nat ->
  length (deque_append cap d x) = Nat.min (S (length d)) cap.
Proof.
  intros Hd. unfold deque_append. rewrite length_app. cbn [length].
  destruct (Nat.ltb_spec cap (length d + 1)).
  - destruct d as [|a d]; cbn [app tl length] in *; [lia|].
    rewrite length_app. cbn [length]. lia.
  - rewrite length_app. cbn [length]. lia.
Qed.

Section ColdStart.

Variable cfg : Config.
Variable clock : nat -> Q.

Lemma after_line_counted gf gr ge r w :
  window_counted cfg w -> window_counted cfg (after_line cfg clock gf gr ge r w).
Proof.
  unfold window_counted. intros Hw.
  destruct (after_line_frame cfg clock gf gr ge r w) as (-> & -> & _).
  rewrite deque_append_length by lia. lia.
Qed.

(** While the counter is below 10, or below a tenth of the capacity, a line
    raises no error-rate alert. *)
Lemma line_alerts_cold gf gr ge r w :
  window_counted cfg w ->
  (total_requests (st w) + 1 < 10 \/
   10 * (total_requests (st w) + 1) < WINDOW_SIZE cfg)%nat ->
  line_alerts cfg clock gf gr ge r w
    = detect_alerts cfg clock gf gr (pool r)
        (after_add cfg clock (upstream_status r) (pool r) w).
Proof.
  intros Hw Hcold. unfold line_alerts. cbv zeta.
  set (w1 := after_add cfg clock (upstream_status r) (pool r) w).
  destruct (after_detect_frame cfg clock gf gr (pool r) w1) as (Hwin & Htot & _).
  rewrite Htot. cbn [w1 after_add st total_requests set_total_requests].
  destruct (Nat.eqb_spec ((total_requests (st w) + 1) mod 10) 0) as [Hmod|_];
    [|apply app_nil_r].
  destruct Hcold as [Hsmall|Hsmall].
  - rewrite Nat.mod_small in Hmod by exact Hsmall. lia.
  - unfold check_alerts. cbv zeta. rewrite Hwin.
    cbn [w1 after_add st request_window set_total_requests set_request_window].
    assert (Hlen : Qlt_bool
              (inject_Z (Z.of_nat (length
                 (deque_append (WINDOW_SIZE cfg) (request_window (st w))
                    {| status := upstream_status r; obs_pool := pool r;
                       timestamp := clock (tick w) |}))))
              (inject_Z (Z.of_nat (WINDOW_SIZE cfg)) * (1 # 10)) = true).
    { apply window_too_small_iff. unfold window_counted in Hw.
      rewrite deque_append_length by lia. lia. }
    rewrite Hlen. apply app_nil_r.
Qed.

Lemma main_loop_cold lines :
  forall w,
    window_counted cfg w ->
    (total_requests (st w) + length (parsed_records lines) < 10 \/
     10 * (total_requests (st w) + length (parsed_records lines))
       < WINDOW_SIZE cfg)%nat ->
    exists alerts,
      trace (snd (main_loop cfg clock lines w)) = trace w ++ events_of alerts /\
      Forall (fun a => fst (fst a) <> "error_rate") alerts.
Proof.
  induction lines as [|line rest IH]; intros w Hw Hcold.
  - exists []. cbn. split; [now rewrite app_nil_r | constructor].
  - rewrite main_loop_cons. cbn [parsed_records] in Hcold.
    destruct (parse_log_line_total line) as [[r|] Hp]; rewrite Hp in Hcold.
    + destruct (process_line_outcome cfg clock line r w Hp)
        as (gf & gr & ge & -> & _). cbn [snd].
      destruct (after_line_frame cfg clock gf gr ge r w) as (_ & Htot & _).
      cbn [length] in Hcold.
      destruct (IH (after_line cfg clock gf gr ge r w)) as (later & Htr & Hok).
      * apply after_line_counted, Hw.
      * rewrite Htot. lia.
      * exists (line_alerts cfg clock gf gr ge r w ++ later).
        rewrite Htr, after_line_trace, events_of_app, app_assoc.
        split; [reflexivity|]. apply Forall_app. split; [|exact Hok].
        rewrite line_alerts_cold by (assumption || lia).
        eapply Forall_impl; [apply detect_alerts_ok|]. now intros a [_ H].
    + rewrite process_line_rejected by assumption. cbn [snd]. apply IH; assumption.
Qed.

End ColdStart.

(** X6: cold start: from an empty window and a counter of 0, as long as the
    lines that parse are fewer than 10, or fewer than a tenth of the window
    capacity, the loop makes no error-rate alert attempt, whatever the
    statuses are; only failover and recovery alerts can occur. *)
Theorem main_loop_cold_start :
  forall (cfg : Config) (clock : nat -> Q) (lines : list string) (w : World),
    request_window (st w) = [] ->
    total_requests (st w) = 0%nat ->
    (length (parsed_records lines) < 10 \/
     10 * length (parsed_records lines) < WINDOW_SIZE cfg)%nat ->
    exists alerts : list (string * bool * Payload),
      trace (snd (main_loop cfg clock lines w)) = trace w ++ events_of alerts /\
      Forall (fun a => fst (fst a) <> "error_rate") alerts.
Proof.
  intros cfg clock lines w Hwin Htot Hcold.
  apply main_loop_cold.
  - unfold window_counted. rewrite Hwin, Htot. reflexivity.
  - rewrite Htot. exact Hcold.
Qed.

Lemma main_loop_cold_start_witness :
  request_window (st fresh_world) = [] /\
  total_requests (st fresh_world) = 0%nat /\
  (length (parsed_records (repeat "blue|v1|503|a|0.1|0.1" 19)) < 10 \/
   10 * length (parsed_records (repeat "blue|v1|503|a|0.1|0.1" 19))
     < WINDOW_SIZE default_config)%nat /\
  exists alerts : list (string * bool * Payload),
    trace (snd (main_loop default_config wall_clock
                  (repeat "blue|v1|503|a|0.1|0.1" 19) fresh_world))
      = trace fresh_world ++ events_of alerts /\
    Forall (fun a => fst (fst a) <> "error_rate") alerts.
Proof.
  assert (Hc : (length (parsed_records (repeat "blue|v1|503|a|0.1|0.1" 19)) < 10 \/
                10 * length (parsed_records (repeat "blue|v1|503|a|0.1|0.1" 19))
                  < WINDOW_SIZE default_config)%nat).
  { right. vm_compute. lia. }
  split; [reflexivity|]. split; [reflexivity|]. split; [exact Hc|].
  apply (main_loop_cold_start default_config wall_clock
           (repeat "blue|v1|503|a|0.1|0.1" 19) fresh_world eq_refl eq_refl Hc).
Defined.

(** ** Recovery durations *)

Lemma recovery_durations_app a b :
  recovery_durations (a ++ b) = recovery_durations a ++ recovery_durations b.
Proof.
  induction a as [|e a IH]; [reflexivity|].
  cbn [app recovery_durations]. destruct e as [ty g|ty [| |p d]]; rewrite IH; reflexivity.
Qed.

Section Durations.

Variable cfg : Config.
Variable clock : nat -> Q.
Hypothesis clock_monotone : forall a b, (a <= b)%nat -> (clock a <= clock b)%Q.

Lemma start_in_past_later w w' :
  failover_start_time (st w') = failover_start_time (st w) ->
  (tick w <= tick w')%nat ->
  start_in_past clock w -> start_in_past clock w'.
Proof.
  unfold start_in_past. intros -> Ht.
  destruct (failover_start_time (st w)); [|trivial].
  intros (k & Hk & ->). exists k. split; [lia | reflexivity].
Qed.

Lemma after_failover_alert_sound g old_pool new_pool w :
  durations_sound clock w ->
  durations_sound clock (after_failover_alert cfg clock g old_pool new_pool w).
Proof.
  intros [Hs Hd]. unfold after_failover_alert. destruct g.
  - split.
    + unfold start_in_past. cbn. exists (S (tick w)). split; [lia | reflexivity].
    + cbn. rewrite <- app_assoc, recovery_durations_app. cbn.
      now rewrite app_nil_r.
  - split.
    + eapply start_in_past_later; [| |exact Hs]; [reflexivity|].
      cbn. destruct (negb _); lia.
    + cbn. rewrite recovery_durations_app. cbn. now rewrite app_nil_r.
Qed.

Lemma recovery_duration_nonneg new_pool w :
  start_in_past clock w ->
  recovery_condition new_pool (st w) = true ->
  (0 <= recovery_duration clock w)%Q.
Proof.
  unfold start_in_past, recovery_condition, recovery_duration.
  destruct (failover_start_time (st w)) as [t|].
  - intros (k & Hk & ->) _.
    change (default 0%Q (Some (clock k))) with (clock k).
    assert (H : (clock k <= clock (tick w))%Q) by (apply clock_monotone; lia).
    lra.
  - intros _ H. rewrite andb_false_r in H. discriminate H.
Qed.

Lemma after_recovery_check_sound g new_pool w :
  durations_sound clock w ->
  durations_sound clock (after_recovery_check cfg clock g new_pool w).
Proof.
  intros [Hs Hd]. unfold after_recovery_check.
  destruct (recovery_condition new_pool (st w)) eqn:Hc; [|split; assumption].
  pose proof (recovery_duration_nonneg new_pool w Hs Hc) as Hdur.
  split; [exact I|]. destruct g; cbn.
  - rewrite <- app_assoc, recovery_durations_app. cbn.
    apply Forall_app. split; [exact Hd|]. constructor; [exact Hdur | constructor].
  - rewrite recovery_durations_app. cbn. now rewrite app_nil_r.
Qed.

Lemma after_detect_sound gf gr new_pool w :
  durations_sound clock w ->
  durations_sound clock (snd (after_detect cfg clock gf gr new_pool w)).
Proof.
  intros Hw. unfold after_detect.
  destruct (current_pool (st w)) as [old_pool|].
  - destruct (String.eqb old_pool new_pool); [exact Hw|]. cbn [snd].
    apply after_recovery_check_sound.
    pose proof (after_failover_alert_sound gf old_pool new_pool w Hw) as [Hs Hd].
    split; [|exact Hd]. exact Hs.
  - exact Hw.
Qed.

Lemma after_check_sound g w :
  durations_sound clock w -> durations_sound clock (after_check cfg clock g w).
Proof.
  intros [Hs Hd]. split.
  - eapply start_in_past_later; [| |exact Hs].
    + apply after_check_frame.
    + unfold after_check. destruct (Qlt_bool _ _); [lia|].
      destruct (get_error_rate _) as [rate|]; [|lia].
      destruct (Qlt_bool _ rate); [|lia].
      destruct g; cbn; [lia|]. destruct (negb _); lia.
  - rewrite after_check_trace, recovery_durations_app.
    apply Forall_app. split; [exact Hd|].
    unfold check_alerts. cbv zeta. destruct (Qlt_bool _ _); [constructor|].
    destruct (get_error_rate _) as [rate|]; [|constructor].
    destruct (Qlt_bool _ rate); [|constructor].
    destruct g; constructor.
Qed.

Lemma after_line_sound gf gr ge r w :
  durations_sound clock w -> durations_sound clock (after_line cfg clock gf gr ge r w).
Proof.
  intros [Hs Hd]. unfold after_line. cbv zeta.
  assert (H1 : durations_sound clock (after_add cfg clock (upstream_status r) (pool r) w)).
  { split; [|exact Hd]. eapply start_in_past_later; [| |exact Hs];
      [reflexivity | cbn; lia]. }
  apply (after_detect_sound gf gr (pool r)) in H1.
  destruct (_ =? 0)%nat; [apply after_check_sound|]; exact H1.
Qed.

Lemma main_loop_sound lines w :
  durations_sound clock w -> durations_sound clock (snd (main_loop cfg clock lines w)).
Proof.
  apply main_loop_preserves. clear w. intros line w Hw.
  destruct (parse_log_line_total line) as [[r|] Hp].
  - destruct (process_line_outcome cfg clock line r w Hp)
      as (gf & gr & ge & -> & _). apply after_line_sound, Hw.
  - rewrite process_line_rejected by assumption. exact Hw.
Qed.

End Durations.

(** X12: with a clock that never goes back, no recovery alert reports a
    negative duration: started with no failover open and nothing sent, the
    loop reports, for any lines, only durations of at least 0. *)
Theorem main_loop_recovery_durations_nonnegative :
  forall (cfg : Config) (clock : nat -> Q) (lines : list string) (w : World),
    (forall a b, (a <= b)%nat -> (clock a <= clock b)%Q) ->
    failover_start_time (st w) = None ->
    trace w = [] ->
    Forall (fun d => (0 <= d)%Q)
      (recovery_durations (trace (snd (main_loop cfg clock lines w)))).
Proof.
  intros cfg clock lines w Hmono Hstart Htrace.
  apply (main_loop_sound cfg clock Hmono lines w).
  split.
  - unfold start_in_past. now rewrite Hstart.
  - rewrite Htrace. constructor.
Qed.

Lemma wall_clock_monotone (a b : nat) : (a <= b)%nat -> (wall_clock a <= wall_clock b)%Q.
Proof. intros H. unfold wall_clock, Qle. cbn. lia. Qed.

Lemma main_loop_recovery_durations_nonnegative_witness :
  (forall a b, (a <= b)%nat -> (wall_clock a <= wall_clock b)%Q) /\
  failover_start_time (st fresh_world) = None /\
  trace fresh_world = [] /\
  recovery_durations
    (trace (snd (main_loop default_config wall_clock
                   ["blue|v1|200|a|0.1|0.1"; "green|v1|502|b|0.1|0.1";
                    "blue|v1|200|a|0.1|0.1"] fresh_world)))
    = [wall_clock 6 - wall_clock 3]%Q /\
  Forall (fun d => (0 <= d)%Q)
    (recovery_durations
       (trace (snd (main_loop default_config wall_clock
                      ["blue|v1|200|a|0.1|0.1"; "green|v1|502|b|0.1|0.1";
                       "blue|v1|200|a|0.1|0.1"] fresh_world)))).
Proof.
  split; [exact wall_clock_monotone|]. split; [reflexivity|].
  split; [reflexivity|]. split; [vm_compute; reflexivity|].
  apply (main_loop_recovery_durations_nonnegative default_config wall_clock
           ["blue|v1|200|a|0.1|0.1"; "green|v1|502|b|0.1|0.1";
            "blue|v1|200|a|0.1|0.1"] fresh_world wall_clock_monotone
           eq_refl eq_refl).
Defined.

(** ** The window forgets *)

Lemma get_error_rate_without_errors window :
  (forall req, In req window -> is_5xx req = false) ->
  exists rate, get_error_rate window = Ok rate /\ (rate == 0)%Q.
Proof.
  intros Hnone. destruct window as [|req rest] eqn:Hw.
  - exists 0%Q. split; reflexivity.
  - rewrite <- Hw in *. eexists. split.
    + apply get_error_rate_nonempty. rewrite Hw. discriminate.
    + rewrite filter_none by exact Hnone. cbn [length].
      change (inject_Z (Z.of_nat 0)) with 0%Q.
      rewrite (b64_nearest_Qeq _ 0); [reflexivity|].
      unfold Qeq, Qmult, Qdiv, Qinv. cbn. reflexivity.
Qed.

Lemma get_error_rate_only_errors window :
  window <> [] ->
  (forall req, In req window -> is_5xx req = true) ->
  exists rate, get_error_rate window = Ok rate /\ (rate == 100)%Q.
Proof.
  intros Hne Hall. eexists. split; [apply get_error_rate_nonempty, Hne|].
  rewrite filter_all by exact Hall.
  assert (Hlen : ~ (inject_Z (Z.of_nat (length window)) == 0)%Q).
  { destruct window; [congruence|]. unfold Qeq. cbn. lia. }
  rewrite (b64_nearest_Qeq _ 1), b64_nearest_1, times_100_1; [reflexivity|].
  field. exact Hlen.
Qed.

Lemma observations_status clock t calls req :
  In req (observations clock t calls) ->
  exists pool, In (status req, pool) calls.
Proof.
  revert t. induction calls as [|[s p] rest IH]; intros t; cbn; [tauto|].
  intros [<-|H]; [exists p; now left|].
  destruct (IH _ H) as [q Hq]. exists q. now right.
Qed.

Lemma In_skipn {A : Type} n (l : list A) x : In x (skipn n l) -> In x l.
Proof.
  intros H. rewrite <- (firstn_skipn n l). apply in_or_app. now right.
Qed.

(** X7: the window forgets: once at least [WINDOW_SIZE] requests have been
    added, the window holds the last [WINDOW_SIZE] of them and nothing of
    what it held before; so the error rate is 0 when none of the added
    statuses is a 5xx and, for a positive capacity, 100 when all of them are,
    whatever the window held before. *)
Theorem window_forgets_after_capacity :
  forall (cfg : Config) (clock : nat -> Q) (calls : list (Z * string)) (w : World),
    (length (request_window (st w)) <= WINDOW_SIZE cfg)%nat ->
    (WINDOW_SIZE cfg <= length calls)%nat ->
    let window := request_window (st (snd (add_requests cfg clock calls w))) in
    window = skipn (length calls - WINDOW_SIZE cfg) (observations clock (tick w) calls) /\
    ((forall s p, In (s, p) calls -> ~ (500 <= s < 600)%Z) ->
       exists rate, get_error_rate window = Ok rate /\ (rate == 0)%Q) /\
    ((0 < WINDOW_SIZE cfg)%nat ->
     (forall s p, In (s, p) calls -> (500 <= s < 600)%Z) ->
       exists rate, get_error_rate window = Ok rate /\ (rate == 100)%Q).
Proof.
  intros cfg clock calls w Hold Hnew window.
  assert (Hwin : window = skipn (length calls - WINDOW_SIZE cfg)
                            (observations clock (tick w) calls)).
  { pose proof (add_requests_history cfg clock calls w (request_window (st w))) as H.
    cbv zeta in H. destruct H as (_ & H & _).
    - unfold last_n. replace (length (request_window (st w)) - WINDOW_SIZE cfg)%nat
        with 0%nat by lia. reflexivity.
    - subst window. rewrite H. unfold last_n.
      rewrite length_app, observations_length.
      rewrite drop_app_ge by lia. f_equal. lia. }
  split; [exact Hwin|]. split.
  - intros Hnone. apply get_error_rate_without_errors.
    intros req Hin. rewrite Hwin in Hin. apply In_skipn in Hin.
    destruct (observations_status _ _ _ _ Hin) as [p Hp].
    apply not_true_iff_false. rewrite is_5xx_iff. exact (Hnone _ _ Hp).
  - intros Hcap Hall. apply get_error_rate_only_errors.
    + intros Hempty. apply (f_equal (@length Observation)) in Hempty.
      rewrite Hwin, length_skipn, observations_length in Hempty.
      cbn [length] in Hempty. lia.
    + intros req Hin. rewrite Hwin in Hin. apply In_skipn in Hin.
      destruct (observations_status _ _ _ _ Hin) as [p Hp].
      apply is_5xx_iff. exact (Hall _ _ Hp).
Qed.

Lemma window_forgets_after_capacity_witness :
  let w := snd (add_requests small_config wall_clock
                  [(500, "blue"); (502, "blue"); (503, "blue")]%Z fresh_world) in
  (length (request_window (st w)) <= WINDOW_SIZE small_config)%nat /\
  (WINDOW_SIZE small_config <= length [(200, "green"); (201, "green"); (404, "green")])%nat /\
  map status
    (request_window
       (st (snd (add_requests small_config wall_clock
                   [(200, "green"); (201, "green"); (404, "green")]%Z w))))
    = [200; 201; 404]%Z.
Proof.
  cbv zeta.
  set (w := snd (add_requests small_config wall_clock
                   [(500, "blue"); (502, "blue"); (503, "blue")]%Z fresh_world)).
  assert (H1 : (length (request_window (st w)) <= WINDOW_SIZE small_config)%nat)
    by (vm_compute; lia).
  assert (H2 : (WINDOW_SIZE small_config
                <= length [(200, "green"); (201, "green"); (404, "green")]%Z)%nat)
    by (vm_compute; lia).
  split; [exact H1|]. split; [exact H2|].
  pose proof (window_forgets_after_capacity small_config wall_clock
                [(200, "green"); (201, "green"); (404, "green")]%Z w H1 H2) as H.
  cbv zeta in H. destruct H as (Hwin & _). rewrite Hwin. vm_compute. reflexivity.
Defined.

(** ** The timers of the alert types *)



(** ** The error-rate check and the failover detector keep apart *)

Lemma get_error_rate_range window rate :
  get_error_rate window = Ok rate -> (0 <= rate <= 100)%Q.
Proof.
  destruct window as [|req rest] eqn:Hw.
  - intros [= <-]. lra.
  - rewrite <- Hw. rewrite get_error_rate_nonempty by (rewrite Hw; discriminate).
    intros [= <-]. apply times_100_range.
    apply (b64_nearest_le_int _ 1); [split; [lia|reflexivity]|].
    apply error_share_range. rewrite Hw. discriminate.
Qed.


(** X20: [check_error_rate] makes at most one alert attempt, of type
    "error_rate", and only with a window holding at least a tenth of its
    capacity; the rate it reports is the rate of the window, strictly above
    the threshold and at most 100. *)
Theorem check_error_rate_reports_real_rates :
  forall (cfg : Config) (clock : nat -> Q) (w : World),
    exists alerts : list (string * bool * Payload),
      trace (snd (check_error_rate cfg clock w)) = trace w ++ events_of alerts /\
      (alerts = [] \/
       exists granted rate,
         alerts = [("error_rate", granted,
                    ErrorRateData rate (str_or (current_pool (st w)) "Unknown"))] /\
         get_error_rate (request_window (st w)) = Ok rate /\
         (ERROR_RATE_THRESHOLD cfg < rate)%Q /\
         (rate <= 100)%Q /\
         (WINDOW_SIZE cfg <= 10 * length (request_window (st w)))%nat).
Proof.
  intros cfg clock w.
  destruct (check_error_rate_outcome cfg clock w) as (g & -> & _). cbn [snd].
  exists (check_alerts cfg g w). split; [apply after_check_trace|].
  unfold check_alerts. cbv zeta.
  destruct (Qlt_bool (inject_Z _) _) eqn:Hsmall; [now left|].
  destruct (get_error_rate _) as [rate|] eqn:Hrate; [|now left].
  destruct (Qlt_bool _ rate) eqn:Hthr; [|now left].
  right. exists g, rate. split; [reflexivity|]. split; [reflexivity|].
  split; [now apply Qlt_bool_iff|]. split; [apply (get_error_rate_range _ _ Hrate)|].
  apply not_true_iff_false in Hsmall. rewrite window_too_small_iff in Hsmall. lia.
Qed.

(** ** One observation of a pool *)



(** ** The texts of the messages *)

Lemma int_of_float_nonneg d :
  (0 <= d)%Q ->
  (0 <= int_of_float d)%Z /\
  (inject_Z (int_of_float d) <= d)%Q /\ (d < inject_Z (int_of_float d) + 1)%Q.
Proof.
  intros Hd. unfold int_of_float.
  apply Qle_bool_iff in Hd as Hb. rewrite Hb.
  pose proof (Qfloor_le d) as Hle. pose proof (Qlt_floor d) as Hlt.
  rewrite inject_Z_plus in Hlt. change (inject_Z 1) with 1%Q in Hlt.
  split; [|split; assumption].
  apply (Qfloor_resp_le 0 d Hd).
Qed.

Lemma int_of_float_negative d : (d < 0)%Q -> (int_of_float d <= 0)%Z.
Proof.
  intros Hd. unfold int_of_float.
  assert (Hb : Qle_bool 0 d = false).
  { apply not_true_iff_false. rewrite Qle_bool_iff. lra. }
  rewrite Hb. apply (Qceiling_resp_le d 0). lra.
Qed.

(** X16: the duration shown in the recovery message: the seconds shown are
    always between 0 and 59; up to 59 seconds (a negative duration included)
    only the seconds are shown; from 60 seconds on the minutes are shown
    first, and minutes and seconds together are the duration without its
    fraction. *)
Theorem duration_str_text :
  forall duration : Q,
    let n := int_of_float duration in
    (0 <= n mod 60 < 60)%Z /\
    n = (60 * (n / 60) + n mod 60)%Z /\
    ((0 <= duration)%Q ->
       (inject_Z n <= duration)%Q /\ (duration < inject_Z n + 1)%Q) /\
    ((duration < 60)%Q ->
       duration_str duration = str_of_int (n mod 60) +:+ "s") /\
    ((60 <= duration)%Q ->
       (0 < n / 60)%Z /\
       duration_str duration
         = str_of_int (n / 60) +:+ "m " +:+ str_of_int (n mod 60) +:+ "s").
Proof.
  intros duration n.
  split; [apply Z.mod_pos_bound; lia|].
  split; [apply Z.div_mod; lia|].
  split; [intros Hd; apply (int_of_float_nonneg duration Hd)|].
  split.
  - intros Hlt. unfold duration_str. fold n.
    assert (Hmin : (n / 60 <= 0)%Z).
    { destruct (Qlt_le_dec duration 0) as [Hneg|Hpos].
      - pose proof (int_of_float_negative duration Hneg) as Hn. fold n in Hn.
        apply Z.div_le_upper_bound; lia.
      - destruct (int_of_float_nonneg duration Hpos) as (Hn0 & Hle & _).
        fold n in Hn0, Hle.
        assert (Hn : (n < 60)%Z).
        { rewrite Zlt_Qlt. change (inject_Z 60) with 60%Q. lra. }
        rewrite Z.div_small by lia. lia. }
    destruct (Z.ltb_spec 0 (n / 60)); [lia | reflexivity].
  - intros Hge.
    assert (Hpos : (0 <= duration)%Q) by lra.
    destruct (int_of_float_nonneg duration Hpos) as (Hn0 & _ & Hlt).
    fold n in Hn0, Hlt.
    assert (Hn : (60 <= n)%Z).
    { assert (H : (59 < n)%Z); [|lia].
      rewrite Zlt_Qlt. change (inject_Z 59) with 59%Q. lra. }
    assert (Hmin : (0 < n / 60)%Z) by (apply Z.div_str_pos; lia).
    split; [exact Hmin|]. unfold duration_str. fold n.
    destruct (Z.ltb_spec 0 (n / 60)); [reflexivity | lia].
Qed.

Example duration_str_examples :
  duration_str (125 # 1) = "2m 5s" /\
  duration_str (599 # 10) = "59s" /\
  duration_str (0 # 1) = "0s" /\
  duration_str (- (61 # 1)) = "59s".
Proof. repeat split; vm_compute; reflexivity. Qed.

Lemma lower_ascii_dash c : Ascii.eqb (lower_ascii c) "-" = Ascii.eqb c "-".
Proof. destruct c as [[] [] [] [] [] [] [] []]; reflexivity. Qed.

Lemma count_char_lower_dash s : count_char "-" (lower s) = count_char "-" s.
Proof.
  induction s as [|c s IH]; [reflexivity|].
  cbn [lower count_char]. now rewrite lower_ascii_dash, IH.
Qed.

Lemma prefix_lower a b :
  String.prefix a b = true -> String.prefix (lower a) (lower b) = true.
Proof.
  revert b. induction a as [|x a IH]; intros [|y b]; cbn [String.prefix lower];
    try reflexivity; try discriminate.
  destruct (ascii_dec x y) as [->|]; [|discriminate].
  intros H. destruct (ascii_dec (lower_ascii y) (lower_ascii y)); [|congruence].
  now apply IH.
Qed.

(** The first field: the text before the first separator. *)
Lemma split_head s sep f rest :
  split s sep = f :: rest ->
  String.prefix f s = true /\ count_char sep f = 0%nat /\
  (count_char sep s = 0%nat -> f = s).
Proof.
  revert f rest. induction s as [|c s IH]; intros f rest; cbn [split].
  - intros [= <- <-]. repeat split.
  - destruct (Ascii.eqb c sep) eqn:Hc.
    + intros [= <- <-]. cbn [count_char]. rewrite Hc. repeat split. discriminate.
    + destruct (split s sep) as [|f' rest'] eqn:Hs.
      * exfalso. eapply split_nonempty, Hs.
      * intros [= <- <-]. destruct (IH f' rest' eq_refl) as (Hp & Hn & Hall).
        cbn [String.prefix count_char]. rewrite Hc.
        destruct (ascii_dec c c); [|congruence].
        split; [exact Hp|]. split; [exact Hn|].
        cbn. intros H. f_equal. apply Hall, H.
Qed.

(** X19: the service named in the error-rate message: taking it never
    raises; it is the lower-cased text before the first "-" of the pool
    name, so it holds no "-" and is the whole lower-cased name when the name
    has none. *)
Theorem service_name_is_prefix :
  forall active_pool : string,
    exists name : string,
      service_name active_pool = Ok name /\
      count_char "-" name = 0%nat /\
      String.prefix name (lower active_pool) = true /\
      (count_char "-" active_pool = 0%nat -> name = lower active_pool).
Proof.
  intros active_pool. unfold service_name.
  destruct (split active_pool "-") as [|f rest] eqn:Hs.
  - exfalso. eapply split_nonempty, Hs.
  - destruct (split_head _ _ _ _ Hs) as (Hp & Hn & Hall).
    exists (lower f). cbn. split; [reflexivity|].
    split; [now rewrite count_char_lower_dash|].
    split; [now apply prefix_lower|].
    intros H. now rewrite (Hall H).
Qed.

Example service_name_examples :
  service_name "Blue-v1.0.0" = Ok "blue" /\
  service_name "green" = Ok "green" /\
  service_name "Unknown" = Ok "unknown" /\
  service_name EmptyString = Ok EmptyString.
Proof. repeat split. Qed.

(** ** The cooldown limits the deliveries *)


Section RateLimit.

Variable cfg : Config.
Variable clock : nat -> Q.





Hypothesis burst :
  forall a b, (clock b - clock a < inject_Z (ALERT_COOLDOWN_SEC cfg))%Q.

Variable alert_type : string.
Variable base : nat.









End RateLimit.




(** ** One line *)

(** X21: a line the parser rejects, any line with fewer than five
    separators among them, is dropped without a trace: the loop body returns
    normally and the state, the trace and the clock are exactly as before. *)
Theorem process_line_drops_rejected_lines :
  forall (cfg : Config) (clock : nat -> Q) (line : string) (w : World),
    (parse_log_line line = Ok None ->
       process_line cfg clock line w = (Ok tt, w)) /\
    ((count_char "|" line < 5)%nat ->
       process_line cfg clock line w = (Ok tt, w)).
Proof.
  intros cfg clock line w. split.
  - apply process_line_rejected.
  - intros Hcount. apply process_line_rejected, parse_log_line_short.
    rewrite split_length, count_char_strip by reflexivity. lia.
Qed.

(** X22: the pool named in an error-rate alert is the pool of the line just
    read: the detector has recorded it before the rate is checked, so the
    alert never names a pool that is no longer active, and says "Unknown"
    only for a line whose pool field is empty. *)
Theorem process_line_error_alert_names_line_pool :
  forall (cfg : Config) (clock : nat -> Q) (line : string) (r : LogRecord)
         (w : World),
    parse_log_line line = Ok (Some r) ->
    exists alerts : list (string * bool * Payload),
      trace (snd (process_line cfg clock line w)) = trace w ++ events_of alerts /\
      Forall (fun a =>
                forall rate active_pool,
                  snd a = ErrorRateData rate active_pool ->
                  active_pool = str_or (Some (pool r)) "Unknown")
             alerts.
Proof.
  intros cfg clock line r w Hp.
  destruct (process_line_outcome cfg clock line r w Hp) as (gf & gr & ge & -> & _).
  cbn [snd]. exists (line_alerts cfg clock gf gr ge r w).
  split; [apply after_line_trace|].
  unfold line_alerts. cbv zeta. apply Forall_app. split.
  - unfold detect_alerts.
    destruct (current_pool _) as [old_pool|]; [|constructor].
    destruct (String.eqb old_pool _); [constructor|]. cbv zeta.
    constructor; [intros rate p; discriminate|].
    destruct (recovery_condition _ _); [|constructor].
    constructor; [intros rate p; discriminate | constructor].
  - destruct (_ =? 0)%nat; [|constructor]. unfold check_alerts. cbv zeta.
    destruct (Qlt_bool _ _); [constructor|].
    destruct (get_error_rate _) as [rate|]; [|constructor].
    destruct (Qlt_bool _ rate); [|constructor].
    constructor; [|constructor]. intros rate' p [= _ <-].
    destruct (after_detect_frame cfg clock gf gr (pool r)
                (after_add cfg clock (upstream_status r) (pool r) w))
      as (_ & _ & ->).
    reflexivity.
Qed.

Lemma process_line_error_alert_names_line_pool_witness :
  parse_log_line "green|v1|502|b|0.1|0.1"
    = Ok (Some {| pool := "green"; release := "v1"; upstream_status := 502;
                  upstream_addr := "b";
                  request_time := Finite (b64_nearest (1 # 10));
                  upstream_response_time := Finite (b64_nearest (1 # 10)) |}) /\
  trace (snd (process_line small_config wall_clock "green|v1|502|b|0.1|0.1"
                failing_primary_world))
    = [EvGate "failover" true; EvSlack "failover" (FailoverData "blue" "green");
       EvGate "error_rate" true;
       EvSlack "error_rate" (ErrorRateData 100 "green")] /\
  exists alerts : list (string * bool * Payload),
    trace (snd (process_line small_config wall_clock "green|v1|502|b|0.1|0.1"
                  failing_primary_world))
      = trace failing_primary_world ++ events_of alerts /\
    Forall (fun a =>
              forall rate active_pool,
                snd a = ErrorRateData rate active_pool ->
                active_pool = str_or (Some "green") "Unknown")
           alerts /\
    Exists (fun a => snd a = ErrorRateData 100 "green") alerts.
Proof.
  assert (Hparse :
    parse_log_line "green|v1|502|b|0.1|0.1"
      = Ok (Some {| pool := "green"; release := "v1"; upstream_status := 502;
                    upstream_addr := "b";
                    request_time := Finite (b64_nearest (1 # 10));
                    upstream_response_time := Finite (b64_nearest (1 # 10)) |}))
    by (vm_compute; reflexivity).
  assert (Htrace :
    trace (snd (process_line small_config wall_clock "green|v1|502|b|0.1|0.1"
                  failing_primary_world))
      = [EvGate "failover" true; EvSlack "failover" (FailoverData "blue" "green");
         EvGate "error_rate" true;
         EvSlack "error_rate" (ErrorRateData 100 "green")])
    by (vm_compute; reflexivity).
  split; [exact Hparse|]. split; [exact Htrace|].
  destruct (process_line_error_alert_names_line_pool small_config wall_clock
              "green|v1|502|b|0.1|0.1" _ failing_primary_world Hparse)
    as (alerts & Htr & Hall).
  exists alerts. split; [exact Htr|]. split; [exact Hall|].
  rewrite Htrace in Htr. change (trace failing_primary_world) with (@nil Event) in Htr.
  cbn [app] in Htr.
  destruct alerts as [|[[ty1 g1] p1] [|[[ty2 g2] p2] rest]];
    [discriminate Htr| |].
  - destruct g1; discriminate Htr.
  - apply Exists_cons_tl, Exists_cons_hd.
    destruct g1, g2; cbn in Htr; try discriminate Htr.
    now injection Htr as _ _ _ <- _.
Defined.
